(** * Vintage Cookbook: the sanitizer, the two API handlers and the
    client-side search and date formatting, embedded in Rocq.

    Sources: [api/recipes.js] (recipes handler), the comments handler
    (second part of [app.js]) and the browser script (first part of
    [app.js]).

    JavaScript strings are sequences of UTF-16 code units, modelled as
    [list N]; finite maps of the document store are stdpp [gmap]s. *)

From Stdlib Require Import ZArith NArith Strings.String Strings.Ascii Lia.
From stdpp Require Import base option list sorting gmap.

Set Default Proof Using "Type".
Set Warnings "-register-all".

(* ================================================================== *)
(** ** JavaScript values and the built-ins the program calls          *)
(* ================================================================== *)

Module Js.

(** A string is a list of UTF-16 code units. *)
Abbreviation jsstring := (list N).

(** [js "abc"] is the JavaScript literal ['abc'] (ASCII only). *)
Definition js (s : string) : jsstring :=
  List.map N_of_ascii (list_ascii_of_string s).

(** ECMAScript WhiteSpace and LineTerminator code points, the set that
    [String.prototype.trim] and [parseInt] strip. *)
Definition isWhiteSpace (c : N) : bool :=
  (c =? 9)%N || (c =? 10)%N || (c =? 11)%N || (c =? 12)%N || (c =? 13)%N
  || (c =? 32)%N || (c =? 160)%N || (c =? 5760)%N
  || ((8192 <=? c)%N && (c <=? 8202)%N)
  || (c =? 8232)%N || (c =? 8233)%N || (c =? 8239)%N || (c =? 8287)%N
  || (c =? 12288)%N || (c =? 65279)%N.

Fixpoint trimStart (s : jsstring) : jsstring :=
  match s with
  | c :: s' => if isWhiteSpace c then trimStart s' else s
  | [] => []
  end.

Definition trimEnd (s : jsstring) : jsstring :=
  reverse (trimStart (reverse s)).

(** [s.trim()] *)
Definition trim (s : jsstring) : jsstring := trimEnd (trimStart s).

(** The character class [[<>]]. *)
Definition isAngle (c : N) : bool := (c =? 60)%N || (c =? 62)%N.

(** [s.replace(/[<>]/g, '')] *)
Definition removeAngles (s : jsstring) : jsstring :=
  List.filter (λ c, negb (isAngle c)) s.

(** [s.substring(0, n)] for a non-negative integer [n]. *)
Definition substring0 (n : N) (s : jsstring) : jsstring :=
  take (N.to_nat n) s.

(** [s.length] *)
Definition len (s : jsstring) : Z := Z.of_nat (length s).

Definition eqb (s t : jsstring) : bool := bool_decide (s = t).

(** [s.split(sep)] for a one-character separator: never empty. *)
Fixpoint split (sep : N) (s : jsstring) : list jsstring :=
  match s with
  | [] => [[]]
  | c :: s' =>
      if (c =? sep)%N then [] :: split sep s'
      else match split sep s' with
           | part :: parts => (c :: part) :: parts
           | [] => [[c]]
           end
  end.

Fixpoint startsWith (t s : jsstring) : bool :=
  match t, s with
  | [], _ => true
  | a :: t', b :: s' => (a =? b)%N && startsWith t' s'
  | _ :: _, [] => false
  end.

(** [s.includes(t)] *)
Fixpoint includes (s t : jsstring) : bool :=
  startsWith t s ||
  match s with
  | [] => false
  | _ :: s' => includes s' t
  end.

(** [parts.join(sep)] *)
Fixpoint join (sep : jsstring) (parts : list jsstring) : jsstring :=
  match parts with
  | [] => []
  | [p] => p
  | p :: rest => p ++ sep ++ join sep rest
  end.

(** Decimal digits of a positive integer, most significant first. *)
Fixpoint digitsOf (u : Decimal.uint) : jsstring :=
  match u with
  | Decimal.Nil => []
  | Decimal.D0 u => 48%N :: digitsOf u
  | Decimal.D1 u => 49%N :: digitsOf u
  | Decimal.D2 u => 50%N :: digitsOf u
  | Decimal.D3 u => 51%N :: digitsOf u
  | Decimal.D4 u => 52%N :: digitsOf u
  | Decimal.D5 u => 53%N :: digitsOf u
  | Decimal.D6 u => 54%N :: digitsOf u
  | Decimal.D7 u => 55%N :: digitsOf u
  | Decimal.D8 u => 56%N :: digitsOf u
  | Decimal.D9 u => 57%N :: digitsOf u
  end.

Definition decimal (p : positive) : jsstring := digitsOf (Pos.to_uint p).

(** Number::toString of an integer of magnitude below 10^21, as a
    template literal renders [Math.floor(...)]. *)
Definition integerToString (z : Z) : jsstring :=
  match z with
  | Z0 => js "0"
  | Zpos p => decimal p
  | Zneg p => js "-" ++ decimal p
  end.

(** A Number, by its shortest decimal form: [Dec neg s n] is
    [± s × 10^(n − k)] where [k] is the number of digits of [s]
    (the [n], [k], [s] of Number::toString). *)
Inductive JsNumber :=
| NaN
| Infinity (negative : bool)
| Zero (negative : bool)
| Dec (negative : bool) (s : positive) (n : Z).

Definition zeros (n : Z) : jsstring := replicate (Z.to_nat n) 48%N.

(** Number::toString(x), radix 10. *)
Definition numberToString (x : JsNumber) : jsstring :=
  match x with
  | NaN => js "NaN"
  | Zero _ => js "0"
  | Infinity neg => (if neg then js "-" else []) ++ js "Infinity"
  | Dec neg s n =>
      let ds := decimal s in
      let k := len ds in
      let e := (n - 1)%Z in
      let exponent :=
        js "e" ++ (if (0 <=? e)%Z then js "+" else js "-")
               ++ integerToString (Z.abs e) in
      (if neg then js "-" else []) ++
      (if ((k <=? n) && (n <=? 21))%Z then ds ++ zeros (n - k)
       else if ((0 <? n) && (n <=? 21))%Z then
         take (Z.to_nat n) ds ++ js "." ++ drop (Z.to_nat n) ds
       else if ((-6 <? n) && (n <=? 0))%Z then
         js "0." ++ zeros (- n) ++ ds
       else if (k =? 1)%Z then ds ++ exponent
       else take 1 ds ++ js "." ++ drop 1 ds ++ exponent)
  end.

(** The values a parsed JSON body or a query object can hold, and
    [undefined] for an absent property. *)
Inductive JsValue :=
| JUndefined
| JNull
| JBool (b : bool)
| JNum (x : JsNumber)
| JStr (s : jsstring)
| JArr (elems : list JsValue)
| JObj (props : list (jsstring * JsValue)).

(** ToBoolean: what [!v], [v && _], [v || _] and [if (v)] test. *)
Definition truthy (v : JsValue) : bool :=
  match v with
  | JUndefined | JNull => false
  | JBool b => b
  | JNum NaN | JNum (Zero _) => false
  | JNum _ => true
  | JStr s => negb (eqb s [])
  | JArr _ | JObj _ => true
  end.

(** [typeof v === 'string'] *)
Definition isString (v : JsValue) : bool :=
  match v with JStr _ => true | _ => false end.

(** What the program's code can throw. *)
Inductive Exn :=
| TypeError        (* property of undefined/null, call of a non-function,
                      or a value that has no primitive value *)
| InvalidArgument  (* the store client refuses an argument *)
| StoreRejected.   (* the store refuses the operation *)

(** A computation that returns or throws. *)
#[global] Instance exn_ret : MRet (sum Exn) := λ A a, inr a.

#[global] Instance exn_bind : MBind (sum Exn) := λ A B f r,
  match r with
  | inl e => inl e
  | inr a => f a
  end.

(** The results of a list of computations run from left to right: the
    first exception ends the run. *)
Fixpoint sequence {A} (l : list (Exn + A)) : Exn + list A :=
  match l with
  | [] => mret []
  | r :: l' => a ← r; rest ← sequence l'; mret (a :: rest)
  end.

Fixpoint lookupProp (k : jsstring) (props : list (jsstring * JsValue))
  : option JsValue :=
  match props with
  | [] => None
  | (k', v) :: rest => if eqb k' k then Some v else lookupProp k rest
  end.

(** [String(v)].  An array joins the conversions of its elements with
    commas, printing [null] and [undefined] elements as nothing.  An
    object is converted by its [toString] method: a parsed JSON object
    inherits the one that prints ['[object Object]'], unless it has a
    property of its own called [toString]; that property holds data,
    not a function, neither [toString] nor [valueOf] then yields a
    primitive value, and the conversion throws a TypeError. *)
Fixpoint toString (v : JsValue) : Exn + jsstring :=
  match v with
  | JUndefined => mret (js "undefined")
  | JNull => mret (js "null")
  | JBool true => mret (js "true")
  | JBool false => mret (js "false")
  | JNum x => mret (numberToString x)
  | JStr s => mret s
  | JArr elems =>
      parts ← sequence (List.map (λ e, match e with
                                       | JUndefined | JNull => mret []
                                       | _ => toString e
                                       end) elems);
      mret (join (js ",") parts)
  | JObj props =>
      match lookupProp (js "toString") props with
      | Some _ => inl TypeError
      | None => mret (js "[object Object]")
      end
  end.

(** [v.k] for the property names this program reads (none of them is
    inherited from a prototype): reading a property of [undefined] or
    [null] throws, a missing property is [undefined]. *)
Definition getProp (v : JsValue) (k : jsstring) : Exn + JsValue :=
  match v with
  | JUndefined | JNull => inl TypeError
  | JObj props => inr (default JUndefined (lookupProp k props))
  | _ => inr JUndefined
  end.

(** The value of a digit in the given radix. *)
Definition digitValue (radix c : N) : option N :=
  let d := if ((48 <=? c) && (c <=? 57))%N then Some (c - 48)%N
           else if ((97 <=? c) && (c <=? 122))%N then Some (c - 87)%N
           else if ((65 <=? c) && (c <=? 90))%N then Some (c - 55)%N
           else None in
  match d with
  | Some n => if (n <? radix)%N then Some n else None
  | None => None
  end.

(** The longest prefix of digits, read as a number; [None] when there
    is no digit.  The value is exact, where JavaScript rounds above
    2^53. *)
Fixpoint parseDigits (radix : N) (acc : option N) (s : jsstring) : option N :=
  match s with
  | [] => acc
  | c :: s' =>
      match digitValue radix c with
      | Some d => parseDigits radix (Some (default 0 acc * radix + d)%N) s'
      | None => acc
      end
  end.

(** [parseInt(v)] without a radix argument: [v] is converted to a
    string first, which may throw; [None] is NaN. *)
Definition parseInt (v : JsValue) : Exn + option Z :=
  s ← toString v;
  let s := trimStart s in
  let '(neg, s) := match s with
                   | 45%N :: r => (true, r)
                   | 43%N :: r => (false, r)
                   | _ => (false, s)
                   end in
  let '(radix, s) := match s with
                     | 48%N :: 120%N :: r => (16%N, r)
                     | 48%N :: 88%N :: r => (16%N, r)
                     | _ => (10%N, s)
                     end in
  mret match parseDigits radix None s with
       | Some m => Some (if neg then - Z.of_N m else Z.of_N m)%Z
       | None => None
       end.

(** The time value of a Number (TimeClip): integral milliseconds, or
    [None] (NaN) when not finite or beyond 8.64e15. *)
Definition timeClip (x : JsNumber) : option Z :=
  match x with
  | NaN | Infinity _ => None
  | Zero _ => Some 0%Z
  | Dec neg s n =>
      let k := len (decimal s) in
      let m := if (k <=? n)%Z then (Z.pos s * 10 ^ (n - k))%Z
               else (Z.pos s / 10 ^ (k - n))%Z in
      if (m <=? 8640000000000000)%Z
      then Some (if neg then - m else m)%Z else None
  end.

End Js.

Import Js.

(* ================================================================== *)
(** ** The document store (Firestore) as the handlers use it           *)
(* ================================================================== *)

Module Recipe.
(** A document of the [recipes] collection, as [createRecipe] writes it. *)
Record doc := {
  name : jsstring;
  category : jsstring;
  prepTime : jsstring;
  cookTime : jsstring;
  ingredients : jsstring;
  instructions : jsstring;
  notes : jsstring;
  createdAt : Z;
  updatedAt : Z
}.
End Recipe.

Module Comment.
(** A document of the [comments] collection, as [addComment] writes it. *)
Record doc := {
  recipeId : jsstring;
  username : jsstring;
  comment : jsstring;
  createdAt : Z
}.
End Comment.

Module Store.

(** The store is taken to be reachable: an operation fails only when
    it refuses its arguments.

    The persisted state: the two top-level collections, each a flat set
    of documents keyed by document id, and nothing else. *)
Record db := {
  recipes : gmap jsstring Recipe.doc;
  comments : gmap jsstring Comment.doc
}.

(** What a request gets from outside the program: the server time that
    [FieldValue.serverTimestamp()] resolves to, and the random id that
    [add] draws for the new document. *)
Record Env := {
  serverTimestamp : Z;
  autoId : jsstring
}.

(** Code that reads and writes the store and may throw. *)
Definition M (A : Type) : Type := db → (Exn + A) * db.

#[global] Instance M_ret : MRet M := λ A a st, (inr a, st).

#[global] Instance M_bind : MBind M := λ A B f m st,
  match m st with
  | (inr a, st') => f a st'
  | (inl e, st') => (inl e, st')
  end.

Definition throw {A} (e : Exn) : M A := λ st, (inl e, st).

(** [try { m } catch (e) { handler e }] *)
Definition try {A} (m : M A) (handler : Exn → M A) : M A := λ st,
  match m st with
  | (inl e, st') => handler e st'
  | r => r
  end.

Definition lift {A} (r : Exn + A) : M A :=
  match r with
  | inl e => throw e
  | inr a => mret a
  end.

(** The segments of a path: [path.split('/')] without the empty
    parts, so that a slash in front or at the end is ignored. *)
Definition segmentsOf (path : jsstring) : list jsstring :=
  List.filter (λ segment, (0 <? len segment)%Z) (split 47 path).

(** The document that a path given to [collection.doc] names, by its
    segments below the collection; [None] when the client refuses the
    path: the empty string, a path that holds ['//'], and a path that
    does not end at a document (with the segment of the collection the
    number of segments must be even). *)
Definition documentPath (path : jsstring) : option (list jsstring) :=
  if eqb path [] || includes path (js "//") then None
  else let segments := segmentsOf path in
       if Nat.odd (length segments) then Some segments else None.

(** [collection.doc(path)]: the client also refuses what is not a
    string. *)
Definition doc (path : JsValue) : M (list jsstring) :=
  match path with
  | JStr s =>
      match documentPath s with
      | Some ref => mret ref
      | None => throw InvalidArgument
      end
  | _ => throw InvalidArgument
  end.

(** [doc.id]: the last segment of the reference. *)
Definition idOf (ref : list jsstring) : jsstring := default [] (last ref).

(** The document of the recipes collection that a reference names, if
    there is one.  A reference of one segment names a document of the
    collection; a longer one points into a collection nested below a
    recipe, and the store has none. *)
Definition recipeAt (st : db) (ref : list jsstring) : option Recipe.doc :=
  match ref with
  | [id] => recipes st !! id
  | _ => None
  end.

(** [db.collection('recipes').doc(path).get()]: [None] when
    [doc.exists] is false. *)
Definition getRecipe (ref : list jsstring) : M (option Recipe.doc) := λ st,
  (inr (recipeAt st ref), st).

Definition getComment (id : jsstring) : M (option Comment.doc) := λ st,
  (inr (comments st !! id), st).

(** [db.collection('recipes').add(data)]: creates the document under
    the drawn id, and fails if that id is taken. *)
Definition addRecipe (env : Env) (data : Recipe.doc) : M jsstring := λ st,
  match recipes st !! autoId env with
  | Some _ => (inl StoreRejected, st)
  | None => (inr (autoId env),
             {| recipes := <[autoId env := data]> (recipes st);
                comments := comments st |})
  end.

Definition addComment (env : Env) (data : Comment.doc) : M jsstring := λ st,
  match comments st !! autoId env with
  | Some _ => (inl StoreRejected, st)
  | None => (inr (autoId env),
             {| recipes := recipes st;
                comments := <[autoId env := data]> (comments st) |})
  end.

(** [recipeRef.delete()]; deleting what is not there changes nothing. *)
Definition deleteRecipe (ref : list jsstring) : M unit := λ st,
  (inr (), match ref with
           | [id] => {| recipes := delete id (recipes st);
                        comments := comments st |}
           | _ => st
           end).

(** Newest first. *)
Definition newerRecipe (a b : jsstring * Recipe.doc) : Prop :=
  (Recipe.createdAt b.2 ≤ Recipe.createdAt a.2)%Z.

Definition newerComment (a b : jsstring * Comment.doc) : Prop :=
  (Comment.createdAt b.2 ≤ Comment.createdAt a.2)%Z.

#[global] Instance newerRecipe_dec : RelDecision newerRecipe.
Proof. intros a b. unfold newerRecipe. apply _. Defined.

#[global] Instance newerComment_dec : RelDecision newerComment.
Proof. intros a b. unfold newerComment. apply _. Defined.

(** [recipesRef.orderBy('createdAt', 'desc').get()] *)
Definition recipesByCreatedAtDesc : M (list (jsstring * Recipe.doc)) := λ st,
  (inr (merge_sort newerRecipe (map_to_list (recipes st))), st).

(** [recipesRef.orderBy('createdAt', 'desc').limit(limit).get()]: the
    limit must be an integer (not NaN) that is not negative and fits
    32 bits. *)
Definition recentRecipes (limit : option Z) : M (list (jsstring * Recipe.doc)) :=
  match limit with
  | None => throw InvalidArgument
  | Some n =>
      if ((0 <=? n) && (n <=? 2147483647))%Z
      then all ← recipesByCreatedAtDesc; mret (take (Z.to_nat n) all)
      else throw StoreRejected
  end.

(** [commentsRef.where('recipeId', '==', v).orderBy('createdAt', 'desc').get()] *)
Definition commentsOfRecipe (v : JsValue) : M (list (jsstring * Comment.doc)) := λ st,
  (inr (merge_sort newerComment
          (List.filter
             (λ c, match v with
                   | JStr id => eqb (Comment.recipeId c.2) id
                   | _ => false
                   end)
             (map_to_list (comments st)))), st).

End Store.

Import Store.

(* ================================================================== *)
(** ** Requests and responses                                          *)
(* ================================================================== *)

(** The parts of [req] the handlers read. *)
Record Request := {
  method : jsstring;
  url : jsstring;
  query : JsValue;
  body : JsValue
}.

(** A value in a JSON response body. *)
Inductive Field :=
| Bool (b : bool)
| Count (n : nat)
| Str (s : jsstring)
| Strs (l : list jsstring)
| Echo (v : JsValue)                                 (* a request value *)
| Message (e : Exn)                                  (* [error.message] *)
| RecipeJson (id : jsstring) (data : option Recipe.doc)
                                                     (* [{ id: doc.id, ...doc.data() }] *)
| RecipesJson (l : list (jsstring * Recipe.doc))
| CommentJson (id : jsstring) (data : option Comment.doc)
| CommentsJson (l : list (jsstring * Comment.doc)).

(** What [res.status(code).json(obj)] sends, with the headers set on
    [res] by then. *)
Record Response := {
  status : Z;
  headers : gmap jsstring jsstring;
  json : list (jsstring * Field)
}.

(** [res.setHeader(key, value)] on the headers set so far. *)
Definition setHeader (res : gmap jsstring jsstring) (kv : jsstring * jsstring)
  : gmap jsstring jsstring :=
  <[kv.1 := kv.2]> res.

(** [s || d] for a string [s]. *)
Definition orElse (s d : jsstring) : jsstring :=
  if truthy (JStr s) then s else d.

(* ================================================================== *)
(** ** api/recipes.js                                                  *)
(* ================================================================== *)

Module Recipes.

Definition corsHeaders : list (jsstring * jsstring) :=
  [ (js "Access-Control-Allow-Origin", js "*");
    (js "Access-Control-Allow-Methods", js "GET, POST, PUT, DELETE, OPTIONS");
    (js "Access-Control-Allow-Headers", js "Content-Type") ].

Definition sanitizeString (input : JsValue) : Exn + jsstring :=
  if negb (truthy input) then mret []
  else match input with
       | JStr s => mret (substring0 10000 (removeAngles (trim s)))
       | _ => toString input
       end.

Definition getAllRecipes (res : gmap jsstring jsstring) : M Response :=
  try (recipes ← recipesByCreatedAtDesc;
       mret {| status := 200; headers := res;
               json := [ (js "success", Bool true);
                         (js "count", Count (length recipes));
                         (js "recipes", RecipesJson recipes) ] |})
      (λ error,
       mret {| status := 500; headers := res;
               json := [ (js "error", Str (js "Failed to retrieve recipes"));
                         (js "message", Message error) ] |}).

Definition getRecentRecipes (res : gmap jsstring jsstring) (limit : option Z)
  : M Response :=
  try (recipes ← recentRecipes limit;
       mret {| status := 200; headers := res;
               json := [ (js "success", Bool true);
                         (js "count", Count (length recipes));
                         (js "recipes", RecipesJson recipes) ] |})
      (λ error,
       mret {| status := 500; headers := res;
               json := [ (js "error", Str (js "Failed to retrieve recent recipes"));
                         (js "message", Message error) ] |}).

Definition getRecipeById (res : gmap jsstring jsstring) (recipeId : jsstring)
  : M Response :=
  try (recipeRef ← doc (JStr recipeId);
       data ← getRecipe recipeRef;
       match data with
       | None =>
           mret {| status := 404; headers := res;
                   json := [ (js "error", Str (js "Recipe not found"));
                             (js "recipeId", Str recipeId) ] |}
       | Some _ =>
           mret {| status := 200; headers := res;
                   json := [ (js "success", Bool true);
                             (js "recipe", RecipeJson (idOf recipeRef) data) ] |}
       end)
      (λ error,
       mret {| status := 500; headers := res;
               json := [ (js "error", Str (js "Failed to retrieve recipe"));
                         (js "message", Message error) ] |}).

(** The fields of [newRecipe] are computed in the order of the object
    literal; a conversion that throws ends the request in the [catch]
    branch before anything is written. *)
Definition createRecipe (env : Env) (req : Request)
  (res : gmap jsstring jsstring) : M Response :=
  try (let recipeData := body req in
       name ← lift (getProp recipeData (js "name"));
       ingredients ← lift (getProp recipeData (js "ingredients"));
       instructions ← lift (getProp recipeData (js "instructions"));
       if negb (truthy name) || negb (truthy ingredients)
          || negb (truthy instructions)
       then
         mret {| status := 400; headers := res;
                 json := [ (js "error", Str (js "Missing required fields"));
                           (js "required",
                            Strs [js "name"; js "ingredients"; js "instructions"]) ] |}
       else
         name ← lift (sanitizeString name);
         category ← lift (getProp recipeData (js "category"));
         category ← lift (sanitizeString category);
         prepTime ← lift (getProp recipeData (js "prepTime"));
         prepTime ← lift (sanitizeString prepTime);
         cookTime ← lift (getProp recipeData (js "cookTime"));
         cookTime ← lift (sanitizeString cookTime);
         ingredients ← lift (sanitizeString ingredients);
         instructions ← lift (sanitizeString instructions);
         notes ← lift (getProp recipeData (js "notes"));
         notes ← lift (sanitizeString notes);
         let newRecipe :=
           {| Recipe.name := name;
              Recipe.category := orElse category (js "uncategorized");
              Recipe.prepTime := orElse prepTime [];
              Recipe.cookTime := orElse cookTime [];
              Recipe.ingredients := ingredients;
              Recipe.instructions := instructions;
              Recipe.notes := orElse notes [];
              Recipe.createdAt := serverTimestamp env;
              Recipe.updatedAt := serverTimestamp env |} in
         id ← addRecipe env newRecipe;
         data ← getRecipe [id];
         mret {| status := 201; headers := res;
                 json := [ (js "success", Bool true);
                           (js "message", Str (js "Recipe created successfully"));
                           (js "recipe", RecipeJson id data) ] |})
      (λ error,
       mret {| status := 500; headers := res;
               json := [ (js "error", Str (js "Failed to create recipe"));
                         (js "message", Message error) ] |}).

Definition deleteRecipe (res : gmap jsstring jsstring) (recipeId : jsstring)
  : M Response :=
  try (recipeRef ← doc (JStr recipeId);
       data ← getRecipe recipeRef;
       match data with
       | None =>
           mret {| status := 404; headers := res;
                   json := [ (js "error", Str (js "Recipe not found"));
                             (js "recipeId", Str recipeId) ] |}
       | Some _ =>
           _ ← Store.deleteRecipe recipeRef;
           mret {| status := 200; headers := res;
                   json := [ (js "success", Bool true);
                             (js "message", Str (js "Recipe deleted successfully"));
                             (js "recipeId", Str recipeId) ] |}
       end)
      (λ error,
       mret {| status := 500; headers := res;
               json := [ (js "error", Str (js "Failed to delete recipe"));
                         (js "message", Message error) ] |}).

(** The branch the [if]/[else if] chain of the main handler takes. *)
Inductive Route :=
| RecentRecipes (limit : option Z)
| RecipeById (recipeId : jsstring)
| AllRecipes
| CreateRecipe
| DeleteRecipe (recipeId : jsstring)
| NotAllowed.

(** [const recipeId = (lastPart && lastPart !== 'recipes') ? lastPart : null]
    where [lastPart] is the last ['/']-separated part of the URL before
    ['?']. *)
Definition lastPartOf (url : jsstring) : jsstring :=
  let urlWithoutQuery := default [] (head (split 63 url)) in
  let urlParts := split 47 urlWithoutQuery in
  default [] (last urlParts).

Definition recipeIdOf (url : jsstring) : option jsstring :=
  let lastPart := lastPartOf url in
  if truthy (JStr lastPart) && negb (eqb lastPart (js "recipes"))
  then Some lastPart else None.

(** The conditions of the chain, in order; [query.recent] is read only
    when the method is GET, and [parseInt(query.recent)] is computed
    when that branch is taken. *)
Definition route (req : Request) : Exn + Route :=
  let recipeId := recipeIdOf (url req) in
  let isGet := eqb (method req) (js "GET") in
  recent ← (if isGet then getProp (query req) (js "recent") else inr JUndefined);
  if isGet && truthy recent then
    limit ← parseInt recent;
    mret (RecentRecipes limit)
  else
    mret (if isGet then
            match recipeId with
            | Some id => RecipeById id
            | None => AllRecipes
            end
          else if eqb (method req) (js "POST") then CreateRecipe
          else if eqb (method req) (js "DELETE") then
            match recipeId with
            | Some id => DeleteRecipe id
            | None => NotAllowed
            end
          else NotAllowed).

(** [module.exports = async (req, res) => ...] *)
Definition handler (env : Env) (req : Request) : M Response :=
  if eqb (method req) (js "OPTIONS") then
    mret {| status := 200; headers := ∅; json := [ (js "ok", Bool true) ] |}
  else
    let res := foldl setHeader ∅ corsHeaders in
    try (r ← lift (route req);
         match r with
         | RecentRecipes limit => getRecentRecipes res limit
         | RecipeById recipeId => getRecipeById res recipeId
         | AllRecipes => getAllRecipes res
         | CreateRecipe => createRecipe env req res
         | DeleteRecipe recipeId => deleteRecipe res recipeId
         | NotAllowed =>
             mret {| status := 405; headers := res;
                     json := [ (js "error", Str (js "Method not allowed"));
                               (js "allowedMethods",
                                Strs [js "GET"; js "POST"; js "DELETE"]) ] |}
         end)
        (λ error,
         mret {| status := 500; headers := res;
                 json := [ (js "error", Str (js "Internal server error"));
                           (js "message", Message error) ] |}).

End Recipes.

(* ================================================================== *)
(** ** The comments handler (second part of app.js)                    *)
(* ================================================================== *)

Module Comments.

Definition corsHeaders : list (jsstring * jsstring) :=
  [ (js "Access-Control-Allow-Origin", js "*");
    (js "Access-Control-Allow-Methods", js "GET, POST, OPTIONS");
    (js "Access-Control-Allow-Headers", js "Content-Type") ].

Definition sanitizeString (input : JsValue) : Exn + jsstring :=
  if negb (truthy input) then mret []
  else match input with
       | JStr s => mret (substring0 1000 (removeAngles (trim s)))
       | _ => toString input
       end.

Definition getComments (res : gmap jsstring jsstring) (recipeId : JsValue)
  : M Response :=
  try (if negb (truthy recipeId) then
         mret {| status := 400; headers := res;
                 json := [ (js "error", Str (js "Recipe ID is required"));
                           (js "message",
                            Str (js "Please provide recipeId as a query parameter")) ] |}
       else
         comments ← commentsOfRecipe recipeId;
         mret {| status := 200; headers := res;
                 json := [ (js "success", Bool true);
                           (js "count", Count (length comments));
                           (js "recipeId", Echo recipeId);
                           (js "comments", CommentsJson comments) ] |})
      (λ error,
       mret {| status := 500; headers := res;
               json := [ (js "error", Str (js "Failed to retrieve comments"));
                         (js "message", Message error) ] |}).

Definition addComment (env : Env) (req : Request)
  (res : gmap jsstring jsstring) : M Response :=
  try (let commentData := body req in
       recipeId ← lift (getProp commentData (js "recipeId"));
       username ← lift (getProp commentData (js "username"));
       comment ← lift (getProp commentData (js "comment"));
       if negb (truthy recipeId) || negb (truthy username)
          || negb (truthy comment)
       then
         mret {| status := 400; headers := res;
                 json := [ (js "error", Str (js "Missing required fields"));
                           (js "required",
                            Strs [js "recipeId"; js "username"; js "comment"]) ] |}
       else
         recipeRef ← doc recipeId;
         recipeDoc ← getRecipe recipeRef;
         match recipeDoc with
         | None =>
             mret {| status := 404; headers := res;
                     json := [ (js "error", Str (js "Recipe not found"));
                               (js "recipeId", Echo recipeId) ] |}
         | Some _ =>
             recipeId ← lift (sanitizeString recipeId);
             username ← lift (sanitizeString username);
             comment ← lift (sanitizeString comment);
             let newComment :=
               {| Comment.recipeId := recipeId;
                  Comment.username := username;
                  Comment.comment := comment;
                  Comment.createdAt := serverTimestamp env |} in
             if ((len (Comment.comment newComment) <? 1)
                 || (1000 <? len (Comment.comment newComment)))%Z
             then
               mret {| status := 400; headers := res;
                       json := [ (js "error", Str (js "Invalid comment length"));
                                 (js "message",
                                  Str (js "Comment must be between 1 and 1000 characters")) ] |}
             else if ((len (Comment.username newComment) <? 1)
                      || (100 <? len (Comment.username newComment)))%Z
             then
               mret {| status := 400; headers := res;
                       json := [ (js "error", Str (js "Invalid username length"));
                                 (js "message",
                                  Str (js "Username must be between 1 and 100 characters")) ] |}
             else
               id ← Store.addComment env newComment;
               data ← getComment id;
               mret {| status := 201; headers := res;
                       json := [ (js "success", Bool true);
                                 (js "message", Str (js "Comment added successfully"));
                                 (js "comment", CommentJson id data) ] |}
         end)
      (λ error,
       mret {| status := 500; headers := res;
               json := [ (js "error", Str (js "Failed to add comment"));
                         (js "message", Message error) ] |}).

(** [module.exports = async (req, res) => ...]; [query.recipeId] is
    read only when the method is GET. *)
Definition handler (env : Env) (req : Request) : M Response :=
  if eqb (method req) (js "OPTIONS") then
    mret {| status := 200; headers := ∅; json := [ (js "ok", Bool true) ] |}
  else
    let res := foldl setHeader ∅ corsHeaders in
    try (if eqb (method req) (js "GET") then
           recipeId ← lift (getProp (query req) (js "recipeId"));
           getComments res recipeId
         else if eqb (method req) (js "POST") then
           addComment env req res
         else
           mret {| status := 405; headers := res;
                   json := [ (js "error", Str (js "Method not allowed"));
                             (js "allowedMethods", Strs [js "GET"; js "POST"]) ] |})
        (λ error,
         mret {| status := 500; headers := res;
                 json := [ (js "error", Str (js "Internal server error"));
                           (js "message", Message error) ] |}).

End Comments.

(* ================================================================== *)
(** ** The browser script (first part of app.js)                       *)
(* ================================================================== *)

Module App.

Section Client.

(** The browser's services: the clock read by [new Date()], in
    milliseconds; [Date.parse] ([None] is NaN); the rendering of a valid
    date by [toLocaleDateString('en-US', { year: 'numeric', month:
    'long', day: 'numeric' })]; and [String.prototype.toLowerCase]. *)
Variable now : Z.
Variable parseDate : jsstring → option Z.
Variable toLocaleDateString : Z → jsstring.
Variable toLowerCase : jsstring → jsstring.

(** [try { return body } catch (error) { return handler }] around
    code without effects. *)
Definition catch {A} (body : Exn + A) (handler : Exn → A) : A :=
  match body with
  | inr a => a
  | inl error => handler error
  end.

(** The time value of [new Date(v)]; [None] is an Invalid Date.  An
    array or object is converted to a primitive value first, the string
    of [String(v)], which is then parsed; this conversion may throw. *)
Definition newDate (v : JsValue) : Exn + option Z :=
  match v with
  | JUndefined => mret None
  | JNull => mret (Some 0%Z)
  | JBool b => mret (Some (if b then 1 else 0)%Z)
  | JNum x => mret (timeClip x)
  | JStr s => mret (parseDate s)
  | JArr _ | JObj _ => s ← toString v; mret (parseDate s)
  end.

(** [toLocaleDateString] does not throw on these arguments; an Invalid
    Date renders as ['Invalid Date']. *)
Definition formatDate (timestamp : JsValue) : jsstring :=
  if negb (truthy timestamp) then js "Recently added"
  else
    catch (date ← newDate timestamp;
           mret match date with
                | Some date => toLocaleDateString date
                | None => js "Invalid Date"
                end)
          (λ error, js "Recently added").

(** [diffInSeconds] is NaN for an Invalid Date, and every comparison
    with NaN is false.  Time values are integers, so
    [Math.floor((now - date) / 1000)] is the floor division. *)
Definition formatRelativeTime (timestamp : JsValue) : jsstring :=
  if negb (truthy timestamp) then js "just now"
  else
    catch (date ← newDate timestamp;
           mret match date with
                | None => formatDate timestamp
                | Some date =>
                    let diffInSeconds := ((now - date) / 1000)%Z in
                    if (diffInSeconds <? 60)%Z then js "just now"
                    else if (diffInSeconds <? 3600)%Z then
                      integerToString (diffInSeconds / 60) ++ js " minutes ago"
                    else if (diffInSeconds <? 86400)%Z then
                      integerToString (diffInSeconds / 3600) ++ js " hours ago"
                    else if (diffInSeconds <? 604800)%Z then
                      integerToString (diffInSeconds / 86400) ++ js " days ago"
                    else formatDate timestamp
                end)
          (λ error, js "recently").







End Client.

(** [escapeHtml]'s [map[m]] for a matched character, the character
    itself otherwise. *)
Definition escapeChar (c : N) : jsstring :=
  if (c =? 38)%N then js "&amp;"
  else if (c =? 60)%N then js "&lt;"
  else if (c =? 62)%N then js "&gt;"
  else if (c =? 34)%N then js "&quot;"
  else if (c =? 39)%N then js "&#039;"
  else [c].

(** [text.replace(re, m => map[m])], [re] matching every ampersand,
    angle bracket, double quote and apostrophe. *)
Definition escapeText (text : jsstring) : jsstring :=
  List.flat_map escapeChar text.

(** [escapeHtml(text)]: only a string has [replace]. *)
Definition escapeHtml (text : JsValue) : Exn + jsstring :=
  if negb (truthy text) then mret []
  else match text with
       | JStr s => mret (escapeText s)
       | _ => inl TypeError
       end.

(** [parseIngredients(ingredientsText)]: only a string has [split]. *)
Definition parseIngredients (ingredientsText : JsValue) : Exn + list jsstring :=
  if negb (truthy ingredientsText) then mret []
  else match ingredientsText with
       | JStr s =>
           mret (List.filter (λ line, (0 <? len line)%Z)
                   (List.map trim (split 10 s)))
       | _ => inl TypeError
       end.

(** The [excerpt] that [createRecipeCard] computes for a recipe. *)
Definition excerptOf (recipe : JsValue) : Exn + jsstring :=
  instructions ← getProp recipe (js "instructions");
  if truthy instructions then
    match instructions with
    | JStr s => mret (substring0 120 s ++ js "...")
    | _ => inl TypeError
    end
  else
    ingredients ← getProp recipe (js "ingredients");
    if truthy ingredients then
      lines ← parseIngredients ingredients;
      mret (join (js ", ") (take 3 lines) ++ js "...")
    else mret (js "A delicious family recipe").

Section Capitalize.

(** [String.prototype.toUpperCase] *)
Variable toUpperCase : jsstring → jsstring.

(** [word => word.charAt(0).toUpperCase() + word.slice(1)] *)
Definition capitalizeWord (word : jsstring) : jsstring :=
  toUpperCase (take 1 word) ++ drop 1 word.

(** [capitalize(str)]: only a string has [split]. *)
Definition capitalize (str : JsValue) : Exn + jsstring :=
  if negb (truthy str) then mret []
  else match str with
       | JStr s => mret (join (js " ") (List.map capitalizeWord (split 45 s)))
       | _ => inl TypeError
       end.

End Capitalize.

(** The values of the controls of the recipe form. *)
Record RecipeForm := {
  name : jsstring;
  category : jsstring;
  prepTime : jsstring;
  cookTime : jsstring;
  ingredients : jsstring;
  instructions : jsstring;
  notes : jsstring
}.

(** [validateRecipeForm(form)]: the message of the first rule that
    fails, [None] for [null]. *)
Definition validateRecipeForm (form : RecipeForm) : option jsstring :=
  let name := trim (name form) in
  let category := category form in
  let ingredients := trim (ingredients form) in
  let instructions := trim (instructions form) in
  if negb (truthy (JStr name)) then
    Some (js "Please enter a recipe name.")
  else if (len name <? 3)%Z then
    Some (js "Recipe name must be at least 3 characters long.")
  else if negb (truthy (JStr category)) then
    Some (js "Please select a category.")
  else if negb (truthy (JStr ingredients)) then
    Some (js "Please enter the ingredients.")
  else if negb (truthy (JStr instructions)) then
    Some (js "Please enter the cooking instructions.")
  else if (len instructions <? 20)%Z then
    Some (js "Instructions must be more detailed (at least 20 characters).")
  else None.

(** [handleRecipeSubmit]: the message it shows when the form does not
    validate, else the request it sends; [isoNow] is
    [new Date().toISOString()].  The JSON body arrives parsed. *)
Definition handleRecipeSubmit (form : RecipeForm) (isoNow : jsstring)
  : jsstring + Request :=
  match validateRecipeForm form with
  | Some validationError => inl validationError
  | None =>
      let recipeData :=
        JObj [ (js "name", JStr (trim (name form)));
               (js "category", JStr (category form));
               (js "prepTime", JStr (trim (prepTime form)));
               (js "cookTime", JStr (trim (cookTime form)));
               (js "ingredients", JStr (trim (ingredients form)));
               (js "instructions", JStr (trim (instructions form)));
               (js "notes", JStr (trim (notes form)));
               (js "createdAt", JStr isoNow) ] in
      inr {| method := js "POST"; url := js "/api/recipes";
             query := JObj []; body := recipeData |}
  end.

(** [handleCommentSubmit]: the request it sends, [None] when it
    returns before sending ([currentRecipeId] not set, or a field
    empty after trimming). *)
Definition handleCommentSubmit (currentRecipeId : JsValue)
  (usernameValue commentValue isoNow : jsstring) : option Request :=
  if negb (truthy currentRecipeId) then None
  else
    let username := trim usernameValue in
    let commentText := trim commentValue in
    if negb (truthy (JStr username)) || negb (truthy (JStr commentText))
    then None
    else
      let commentData :=
        JObj [ (js "recipeId", currentRecipeId);
               (js "username", JStr username);
               (js "comment", JStr commentText);
               (js "createdAt", JStr isoNow) ] in
      Some {| method := js "POST"; url := js "/api/comments";
              query := JObj []; body := commentData |}.

(** The string that [openRecipeModal(recipeId)] hands to [fetch].  The
    browser parses it before it sends the request: it is the URL that
    the handler reads only for an id that the URL parser leaves as it
    is, such as one made of letters, digits, ['-'] and ['_']. *)
Definition recipeUrl (recipeId : jsstring) : jsstring :=
  js "/api" ++ js "/recipes/" ++ recipeId.

End App.

(* ================================================================== *)
(** ** Vocabulary of the statements                                    *)
(* ================================================================== *)

(** The pipeline of both sanitizers on a string, for any limit. *)
Definition clean (n : N) (s : jsstring) : jsstring :=
  substring0 n (removeAngles (trim s)).

(** [obj.k], [undefined] where reading it would throw. *)
Definition field (obj : JsValue) (k : string) : JsValue :=
  match getProp obj (js k) with
  | inr v => v
  | inl _ => JUndefined
  end.

(** The age of a date in whole seconds: [Math.floor((now - date) / 1000)]. *)
Definition secondsSince (now date : Z) : Z := ((now - date) / 1000)%Z.








(** The values on which [String(v)] throws: an object with a property
    of its own called [toString], and an array that holds such a value. *)
Inductive unprintable : JsValue → Prop :=
| unprintable_object props x :
    lookupProp (js "toString") props = Some x → unprintable (JObj props)
| unprintable_array elems e :
    e ∈ elems → unprintable e → unprintable (JArr elems).

(** [sanitize(sanitize(x))] *)
Definition twice (sanitize : JsValue → Exn + jsstring) (x : JsValue)
  : Exn + jsstring :=
  once ← sanitize x;
  sanitize (JStr once).

(** The fields of the body that [createRecipe] sanitizes. *)
Definition recipeFields : list string :=
  [ "name"%string; "category"%string; "prepTime"%string; "cookTime"%string;
    "ingredients"%string; "instructions"%string; "notes"%string ].

(** None of them makes [String(input)] throw. *)
Definition sanitizable (body : JsValue) : Prop :=
  Forall (λ k, ∃ s, Recipes.sanitizeString (field body k) = inr s)
    recipeFields.

(** The recipe that [createRecipe] builds from the sanitized fields. *)
Definition recipeOf (env : Env)
  (name category prepTime cookTime ingredients instructions notes : jsstring)
  : Recipe.doc :=
  {| Recipe.name := name;
     Recipe.category := orElse category (js "uncategorized");
     Recipe.prepTime := orElse prepTime [];
     Recipe.cookTime := orElse cookTime [];
     Recipe.ingredients := ingredients;
     Recipe.instructions := instructions;
     Recipe.notes := orElse notes [];
     Recipe.createdAt := serverTimestamp env;
     Recipe.updatedAt := serverTimestamp env |}.

(** A letter, a digit, ['-'] or ['_']: the characters of an id that the
    URL parser of [fetch] leaves as they are. *)
Definition isIdChar (c : N) : bool :=
  ((48 <=? c) && (c <=? 57))%N || ((65 <=? c) && (c <=? 90))%N
  || ((97 <=? c) && (c <=? 122))%N || (c =? 45)%N || (c =? 95)%N.

(** What [capitalize] is to compute, character by character from left
    to right: a hyphen becomes a space, the character that starts the
    string or follows a hyphen is upper-cased, every other character is
    copied.  [atStart] tells whether the next character starts a word. *)
Fixpoint titleCase (toUpperCase : jsstring → jsstring) (atStart : bool)
  (s : jsstring) : jsstring :=
  match s with
  | [] => []
  | c :: s' =>
      if (c =? 45)%N then 32%N :: titleCase toUpperCase true s'
      else if atStart then toUpperCase [c] ++ titleCase toUpperCase false s'
      else c :: titleCase toUpperCase false s'
  end.

(** Code that always answers, with the headers [res]. *)
Definition sends (res : gmap jsstring jsstring) (m : M Response) : Prop :=
  ∀ st, ∃ resp st', m st = (inr resp, st') ∧ headers resp = res.

(** What holds of every recipe that [createRecipe] wrote. *)
Definition recipesInv (st : db) : Prop :=
  ∀ id d, recipes st !! id = Some d →
    Recipe.category d ≠ [] ∧ Recipe.createdAt d = Recipe.updatedAt d.

(** What holds of every comment that [addComment] wrote. *)
Definition commentsInv (st : db) : Prop :=
  ∀ id c, comments st !! id = Some c →
    (1 ≤ len (Comment.username c) ≤ 100)%Z
    ∧ (1 ≤ len (Comment.comment c) ≤ 1000)%Z.

(** The [error] string of a response body, if it has one. *)
Definition errorOf (r : Response) : option jsstring :=
  match json r with
  | (_, Str e) :: _ => Some e
  | _ => None
  end.

(* ================================================================== *)
(** ** Sample data for the examples                                    *)
(* ================================================================== *)

Module Sample.

Definition env : Env :=
  {| serverTimestamp := 1700000000000; autoId := js "d1" |}.

Definition pie : Recipe.doc :=
  {| Recipe.name := js "Grandma's Pie";
     Recipe.category := js "uncategorized";
     Recipe.prepTime := [];
     Recipe.cookTime := [];
     Recipe.ingredients := js "flour";
     Recipe.instructions := js "Mix and bake.";
     Recipe.notes := [];
     Recipe.createdAt := 1600000000000;
     Recipe.updatedAt := 1600000000000 |}.

Definition soup : Recipe.doc :=
  {| Recipe.name := js "Soup";
     Recipe.category := js "dinner";
     Recipe.prepTime := [];
     Recipe.cookTime := [];
     Recipe.ingredients := js "water";
     Recipe.instructions := js "Boil.";
     Recipe.notes := [];
     Recipe.createdAt := 1650000000000;
     Recipe.updatedAt := 1650000000000 |}.

(** What [createRecipe] stores for a name of three spaces. *)
Definition nameless : Recipe.doc :=
  {| Recipe.name := [];
     Recipe.category := js "uncategorized";
     Recipe.prepTime := [];
     Recipe.cookTime := [];
     Recipe.ingredients := js "flour";
     Recipe.instructions := js "Mix and bake.";
     Recipe.notes := [];
     Recipe.createdAt := 1700000000000;
     Recipe.updatedAt := 1700000000000 |}.

Definition empty : db := {| recipes := ∅; comments := ∅ |}.

Definition onePie : db := {| recipes := {[ js "r1" := pie ]}; comments := ∅ |}.

Definition pieAndSoup : db :=
  {| recipes := {[ js "r1" := pie; js "r2" := soup ]}; comments := ∅ |}.


Definition soupJson : JsValue :=
  JObj [ (js "id", JStr (js "r2"));
         (js "name", JStr (js "Soup"));
         (js "category", JStr (js "dinner"));
         (js "ingredients", JStr (js "water"));
         (js "instructions", JStr (js "Boil.")) ].


(** [toUpperCase] on ASCII text. *)
Definition asciiToUpperCase (s : jsstring) : jsstring :=
  List.map (λ c, if ((97 <=? c) && (c <=? 122))%N then (c - 32)%N else c) s.

(** A filled-in recipe form. *)
Definition pieForm : App.RecipeForm :=
  {| App.name := js " Grandma's Pie ";
     App.category := js "dessert";
     App.prepTime := js "20 min";
     App.cookTime := [];
     App.ingredients := js "flour";
     App.instructions := js "Mix and bake for one hour at 350 degrees.";
     App.notes := [] |}.

Definition post (url : string) (body : JsValue) : Request :=
  {| method := js "POST"; url := js url; query := JObj []; body := body |}.

Definition get (url : string) (query : JsValue) : Request :=
  {| method := js "GET"; url := js url; query := query; body := JUndefined |}.

End Sample.

(* ================================================================== *)
(** ** The built-ins on concrete values                                *)
(* ================================================================== *)

Example toString_array :
  toString (JArr [ JStr (js "a"); JNull; JNum (Dec false 15 1);
                   JNum (Dec true 1 22); JNum (Dec false 123 (-2)) ])
  = inr (js "a,,1.5,-1e+21,0.00123").
Proof. vm_compute. reflexivity. Qed.

Example toString_plain_object :
  toString (JObj [ (js "seconds", JNum (Dec false 17 9)) ])
  = inr (js "[object Object]").
Proof. reflexivity. Qed.

Example toString_own_toString :
  toString (JArr [ JStr (js "a"); JObj [ (js "toString", JNum (Dec false 1 1)) ] ])
  = inl TypeError.
Proof. reflexivity. Qed.

Example numberToString_integer : numberToString (Dec false 12 3) = js "120".
Proof. reflexivity. Qed.

Example numberToString_small : numberToString (Dec false 12 (-6)) = js "1.2e-7".
Proof. reflexivity. Qed.

Example parseInt_prefix : parseInt (JStr (js "  -12px")) = inr (Some (-12)%Z).
Proof. reflexivity. Qed.

Example parseInt_hex : parseInt (JStr (js "0x1f")) = inr (Some 31%Z).
Proof. reflexivity. Qed.

Example parseInt_nan : parseInt (JStr (js "abc")) = inr None.
Proof. reflexivity. Qed.

Example documentPath_id : documentPath (js "r1") = Some [js "r1"].
Proof. reflexivity. Qed.

Example documentPath_trailing_slash : documentPath (js "r1/") = Some [js "r1"].
Proof. reflexivity. Qed.

Example documentPath_two_segments : documentPath (js "a/b") = None.
Proof. reflexivity. Qed.

Example documentPath_nested :
  documentPath (js "a/b/c") = Some [js "a"; js "b"; js "c"].
Proof. reflexivity. Qed.

Example documentPath_double_slash : documentPath (js "a//b/c") = None.
Proof. reflexivity. Qed.

Example split_trailing_slash :
  split 47 (js "/api/recipes/") = [ []; js "api"; js "recipes"; [] ].
Proof. reflexivity. Qed.

Example lastPartOf_id :
  Recipes.lastPartOf (js "/api/recipes/abc123?x=1") = js "abc123".
Proof. reflexivity. Qed.

Example trim_both_ends : trim (js "  a b  ") = js "a b".
Proof. reflexivity. Qed.

Example timeClip_fraction : timeClip (Dec false 15 1) = Some 1%Z.
Proof. reflexivity. Qed.

(* ================================================================== *)
(** ** Strings: trimming, stripping and truncating                     *)
(* ================================================================== *)

Section StringFacts.

Implicit Types s t : jsstring.

Lemma trimStart_split s :
  ∃ pre, s = pre ++ trimStart s ∧ Forall (λ c, isWhiteSpace c = true) pre.
Proof.
  induction s as [|c s IH]; simpl.
  - by exists [].
  - destruct (isWhiteSpace c) eqn:Hc.
    + destruct IH as (pre & Hs & Hpre).
      exists (c :: pre). split; [by rewrite Hs at 1 | by constructor].
    + by exists [].
Qed.

Lemma trimStart_head s c : head (trimStart s) = Some c → isWhiteSpace c = false.
Proof.
  induction s as [|a s IH]; simpl; [done|].
  destruct (isWhiteSpace a) eqn:Ha; [done|].
  simpl. by intros [= <-].
Qed.

Lemma trimStart_fixed s :
  (∀ c, head s = Some c → isWhiteSpace c = false) → trimStart s = s.
Proof.
  destruct s as [|a s]; simpl; [done|].
  intros H. by rewrite (H a eq_refl).
Qed.

Lemma trimEnd_split s :
  ∃ post, s = trimEnd s ++ post ∧ Forall (λ c, isWhiteSpace c = true) post.
Proof.
  destruct (trimStart_split (reverse s)) as (pre & Hs & Hpre).
  exists (reverse pre). split.
  - unfold trimEnd. rewrite <- reverse_app, <- Hs. by rewrite reverse_involutive.
  - by apply Forall_reverse.
Qed.

Lemma trimEnd_last s c : last (trimEnd s) = Some c → isWhiteSpace c = false.
Proof.
  unfold trimEnd. rewrite last_reverse. apply trimStart_head.
Qed.

Lemma trimEnd_head s c : head (trimEnd s) = Some c → head s = Some c.
Proof.
  destruct (trimEnd_split s) as (post & Hs & _).
  intros H. rewrite Hs. by destruct (trimEnd s).
Qed.

(** What [trim] does: it cuts a run of white space off each end and
    leaves a string that neither starts nor ends with white space. *)
Lemma trim_spec s :
  ∃ pre post,
    s = pre ++ trim s ++ post
    ∧ Forall (λ c, isWhiteSpace c = true) pre
    ∧ Forall (λ c, isWhiteSpace c = true) post
    ∧ (∀ c, head (trim s) = Some c → isWhiteSpace c = false)
    ∧ (∀ c, last (trim s) = Some c → isWhiteSpace c = false).
Proof.
  destruct (trimStart_split s) as (pre & Hs & Hpre).
  destruct (trimEnd_split (trimStart s)) as (post & Ht & Hpost).
  exists pre, post. unfold trim. repeat split; try done.
  - by rewrite <- Ht.
  - intros c Hc. by apply (trimStart_head s), trimEnd_head.
  - apply trimEnd_last.
Qed.

Lemma trim_length s : length (trim s) ≤ length s.
Proof.
  destruct (trim_spec s) as (pre & post & Hs & _).
  rewrite Hs at 2. rewrite !length_app. lia.
Qed.

Lemma trim_fixed_length s : length (trim s) = length s → trim s = s.
Proof.
  destruct (trim_spec s) as (pre & post & Hs & _). intros Hlen.
  assert (length pre = 0 ∧ length post = 0) as [H1 H2].
  { apply (f_equal length) in Hs. rewrite !length_app in Hs. lia. }
  destruct pre, post; try done. simpl in Hs. by rewrite app_nil_r in Hs.
Qed.

Lemma removeAngles_no_angle s c : c ∈ removeAngles s → isAngle c = false.
Proof.
  unfold removeAngles. rewrite list_elem_of_In, filter_In.
  intros [_ H]. by destruct (isAngle c).
Qed.

Lemma removeAngles_fixed s :
  (∀ c, c ∈ s → isAngle c = false) → removeAngles s = s.
Proof.
  unfold removeAngles. induction s as [|a s IH]; simpl; [done|].
  intros H. rewrite (H a) by left. simpl. f_equal.
  apply IH. intros c Hc. apply H. by right.
Qed.

Lemma removeAngles_length s : length (removeAngles s) ≤ length s.
Proof. apply List.filter_length_le. Qed.

Lemma substring0_length n s : (len (substring0 n s) ≤ Z.of_N n)%Z.
Proof. unfold len, substring0. rewrite length_take. lia. Qed.

Lemma substring0_elem n s c : c ∈ substring0 n s → c ∈ s.
Proof. unfold substring0. rewrite <- (take_drop (N.to_nat n) s) at 2. set_solver. Qed.

Lemma substring0_fixed n s : (len s ≤ Z.of_N n)%Z → substring0 n s = s.
Proof. unfold len, substring0. intros H. apply take_ge. lia. Qed.

Lemma clean_no_angle n s c : c ∈ clean n s → isAngle c = false.
Proof. intros H. by eapply removeAngles_no_angle, substring0_elem. Qed.

Lemma clean_length n s : (len (clean n s) ≤ Z.of_N n)%Z.
Proof. apply substring0_length. Qed.

Lemma clean_shrinks n s : length (clean n s) ≤ length (trim s).
Proof.
  unfold clean, substring0. rewrite length_take.
  pose proof (removeAngles_length (trim s)). lia.
Qed.

Lemma clean_nil n : clean n [] = [].
Proof. unfold clean, substring0. cbn. apply take_nil. Qed.

(** Cleaning a cleaned string changes it exactly when it still has
    white space at an end. *)
Lemma clean_clean n s :
  clean n (clean n s) = clean n s ↔ trim (clean n s) = clean n s.
Proof.
  set (r := clean n s). split.
  - intros H. apply trim_fixed_length.
    pose proof (trim_length r). pose proof (clean_shrinks n r).
    apply (f_equal length) in H. lia.
  - intros H. unfold clean at 1. rewrite H.
    rewrite removeAngles_fixed by apply clean_no_angle.
    apply substring0_fixed, clean_length.
Qed.

Lemma trimEnd_fixed s :
  (∀ c, last s = Some c → isWhiteSpace c = false) → trimEnd s = s.
Proof.
  intros H. unfold trimEnd. rewrite trimStart_fixed.
  - apply reverse_involutive.
  - intros c Hc. apply H. by rewrite <- head_reverse.
Qed.

Lemma trim_trim s : trim (trim s) = trim s.
Proof.
  destruct (trim_spec s) as (_ & _ & _ & _ & _ & Hhead & Hlast).
  unfold trim at 1. rewrite (trimStart_fixed _ Hhead). by apply trimEnd_fixed.
Qed.

Lemma removeAngles_sublist s : removeAngles s `sublist_of` s.
Proof.
  unfold removeAngles. induction s as [|c s IH]; simpl; [done|].
  destruct (negb (isAngle c)); by constructor.
Qed.

Lemma trim_sublist s : trim s `sublist_of` s.
Proof.
  destruct (trim_spec s) as (pre & post & Hs & _).
  rewrite Hs at 2. apply sublist_inserts_l, sublist_inserts_r. done.
Qed.

Lemma clean_sublist n s : clean n s `sublist_of` s.
Proof.
  unfold clean, substring0.
  etrans; [apply sublist_take|]. etrans; [apply removeAngles_sublist|].
  apply trim_sublist.
Qed.

Lemma clean_fixed n s :
  clean n s = s ↔
  trim s = s ∧ (∀ c, c ∈ s → isAngle c = false) ∧ (len s ≤ Z.of_N n)%Z.
Proof.
  split.
  - intros H. split; [|split].
    + apply trim_fixed_length. pose proof (trim_length s).
      pose proof (clean_shrinks n s). rewrite H in *. lia.
    + intros c Hc. rewrite <- H in Hc. by eapply clean_no_angle.
    + rewrite <- H. apply clean_length.
  - intros (Ht & Ha & Hl). unfold clean. rewrite Ht.
    rewrite (removeAngles_fixed _ Ha). by apply substring0_fixed.
Qed.

Lemma startsWith_spec t s :
  startsWith t s = true ↔ ∃ post, s = t ++ post.
Proof.
  revert s. induction t as [|a t IH]; intros s; simpl.
  - split; eauto.
  - destruct s as [|b s].
    + split; [done|]. by intros [post ?].
    + rewrite andb_true_iff, N.eqb_eq, IH. split.
      * intros [-> [post ->]]. eauto.
      * intros [post [= -> ->]]. eauto.
Qed.

(** [includes] is the substring test. *)
Lemma includes_spec s t :
  includes s t = true ↔ ∃ pre post, s = pre ++ t ++ post.
Proof.
  induction s as [|c s IH]; simpl.
  - rewrite orb_false_r, startsWith_spec. split.
    + intros [post ->]. by exists [], post.
    + intros (pre & post & H). destruct pre; [eauto|done].
  - rewrite orb_true_iff, IH.
    change (match t with
            | [] => true
            | a :: t' => (a =? c)%N && startsWith t' s
            end)
      with (startsWith t (c :: s)).
    rewrite startsWith_spec. split.
    + intros [[post ->]|(pre & post & ->)].
      * by exists [], post.
      * by exists (c :: pre), post.
    + intros (pre & post & H). destruct pre as [|c' pre].
      * left. eauto.
      * right. injection H as -> ->. eauto.
Qed.

Lemma split_not_nil sep s : split sep s ≠ [].
Proof.
  destruct s as [|c s]; simpl; [done|].
  destruct (c =? sep)%N; [done|]. by destruct (split sep s).
Qed.

Lemma split_no_sep sep s part :
  part ∈ split sep s → sep ∉ part.
Proof.
  revert part. induction s as [|c s IH]; intros part; simpl.
  - intros ->%list_elem_of_singleton. by intros ?%elem_of_nil.
  - destruct (N.eqb_spec c sep) as [->|Hc].
    + intros [->|H]%elem_of_cons; [by intros ?%elem_of_nil|by apply IH].
    + destruct (split sep s) as [|p ps] eqn:Hs.
      * intros ->%list_elem_of_singleton.
        intros [->|?%elem_of_nil]%elem_of_cons; done.
      * intros [->|H]%elem_of_cons.
        -- intros [->|Hp]%elem_of_cons; [done|].
           revert Hp. apply IH. by left.
        -- apply IH. by right.
Qed.

Lemma split_without_sep sep p : sep ∉ p → split sep p = [p].
Proof.
  induction p as [|c p IH]; simpl; [done|].
  intros [Hc Hp]%not_elem_of_cons.
  destruct (N.eqb_spec c sep) as [->|_]; [done|]. by rewrite IH.
Qed.

Lemma split_app_sep sep p r :
  sep ∉ p → split sep (p ++ sep :: r) = p :: split sep r.
Proof.
  induction p as [|c p IH]; simpl.
  - intros _. by rewrite N.eqb_refl.
  - intros [Hc Hp]%not_elem_of_cons.
    destruct (N.eqb_spec c sep) as [->|_]; [done|]. by rewrite IH.
Qed.

Lemma split_join sep (parts : list jsstring) :
  parts ≠ [] → Forall (λ p, sep ∉ p) parts →
  split sep (join [sep] parts) = parts.
Proof.
  intros Hne Hparts. induction Hparts as [|p parts Hp Hparts IH]; [done|].
  destruct parts as [|q parts].
  - simpl. by apply split_without_sep.
  - change (join [sep] (p :: q :: parts))
      with (p ++ sep :: join [sep] (q :: parts)).
    rewrite split_app_sep by done. f_equal. by apply IH.
Qed.

(** The segment after the last separator. *)
Lemma split_last sep x r :
  last (split sep (x ++ sep :: r)) = last (split sep r).
Proof.
  assert (∃ front, front ≠ [] ∧ split sep (x ++ sep :: r) = front ++ split sep r)
    as (front & Hfront & ->).
  { induction x as [|c x (front & Hfront & IH)]; simpl.
    - rewrite N.eqb_refl. by exists [[]].
    - destruct (c =? sep)%N.
      + exists ([] :: front). by rewrite IH.
      + rewrite IH. destruct front as [|part front]; [done|].
        by exists ((c :: part) :: front). }
  pose proof (split_not_nil sep r).
  destruct (split sep r) as [|p ps] eqn:Hs; [done|].
  rewrite last_app. destruct (last (p :: ps)) eqn:Hl; [done|].
  by apply last_None in Hl.
Qed.

Lemma join_not_nil sep p (parts : list jsstring) :
  p ≠ [] → join sep (p :: parts) ≠ [].
Proof. destruct p, parts; done. Qed.

Lemma clean_of_trim n s : clean n (trim s) = clean n s.
Proof. unfold clean. by rewrite trim_trim. Qed.

End StringFacts.

(** A path without a slash names the document of that id. *)
Lemma documentPath_plain (id : jsstring) :
  id ≠ [] → 47%N ∉ id → documentPath id = Some [id].
Proof.
  intros Hne Hslash. unfold documentPath, eqb.
  rewrite bool_decide_eq_false_2 by done. cbn [orb].
  destruct (includes id (js "//")) eqn:Hinc.
  { apply includes_spec in Hinc as (pre & post & ->).
    exfalso. apply Hslash. rewrite elem_of_app. right. by left. }
  unfold segmentsOf. rewrite split_without_sep by done. simpl.
  destruct id; [done|]. reflexivity.
Qed.

(* ================================================================== *)
(** ** The sanitizers                                                  *)
(* ================================================================== *)

Lemma recipes_sanitize_string S :
  Recipes.sanitizeString (JStr S) = inr (clean 10000 S).
Proof.
  unfold Recipes.sanitizeString, truthy, eqb.
  case_bool_decide as HS; simpl; [|done].
  subst S. by rewrite clean_nil.
Qed.

Lemma comments_sanitize_string S :
  Comments.sanitizeString (JStr S) = inr (clean 1000 S).
Proof.
  unfold Comments.sanitizeString, truthy, eqb.
  case_bool_decide as HS; simpl; [|done].
  subst S. by rewrite clean_nil.
Qed.

Lemma clean_no_lt_gt n S : (60%N ∉ clean n S) ∧ (62%N ∉ clean n S).
Proof. split; intros H; by apply clean_no_angle in H. Qed.

(** C4. For every string S, both sanitizers return S trimmed, with every
    '<' and '>' removed, then cut to the limit (10000 for recipes, 1000
    for comments); the result holds neither '<' nor '>' and is no longer
    than the limit. *)
Theorem sanitizeString_of_string (S : jsstring) :
  (∃ r, Recipes.sanitizeString (JStr S) = inr r
        ∧ r = substring0 10000 (removeAngles (trim S))
        ∧ (60%N ∉ r) ∧ (62%N ∉ r) ∧ (len r ≤ 10000)%Z)
  ∧ (∃ r, Comments.sanitizeString (JStr S) = inr r
          ∧ r = substring0 1000 (removeAngles (trim S))
          ∧ (60%N ∉ r) ∧ (62%N ∉ r) ∧ (len r ≤ 1000)%Z).
Proof.
  rewrite recipes_sanitize_string, comments_sanitize_string.
  split; eexists; (split; [reflexivity|]); (split; [reflexivity|]).
  - destruct (clean_no_lt_gt 10000 S). repeat split; try done.
    apply (clean_length 10000).
  - destruct (clean_no_lt_gt 1000 S). repeat split; try done.
    apply (clean_length 1000).
Qed.

(** Induction over a value and the elements of its arrays. *)
Lemma JsValue_elements_ind (P : JsValue → Prop) :
  P JUndefined → P JNull → (∀ b, P (JBool b)) → (∀ x, P (JNum x)) →
  (∀ s, P (JStr s)) →
  (∀ elems, Forall P elems → P (JArr elems)) →
  (∀ props, P (JObj props)) →
  ∀ v, P v.
Proof.
  intros Hundef Hnull Hbool Hnum Hstr Harr Hobj.
  fix IH 1.
  intros [| |b|x|s|elems|props];
    [exact Hundef|exact Hnull|apply Hbool|apply Hnum|apply Hstr| |apply Hobj].
  apply Harr. induction elems as [|e elems IHelems]; constructor.
  - apply IH.
  - exact IHelems.
Qed.

Lemma sequence_inl {A} (l : list (Exn + A)) e :
  sequence l = inl e → inl e ∈ l.
Proof.
  induction l as [|r l IH]; simpl; [done|].
  destruct r as [e'|a]; cbn [mbind exn_bind mret exn_ret].
  - intros [= ->]. by left.
  - destruct (sequence l) as [e'|rest]; [|done].
    intros [= ->]. right. by apply IH.
Qed.

Lemma sequence_inr {A} (l : list (Exn + A)) :
  (∀ e, inl e ∉ l) → ∃ values, sequence l = inr values.
Proof.
  induction l as [|r l IH]; simpl; [by eexists|].
  intros Hl. destruct r as [e|a].
  - exfalso. apply (Hl e). by left.
  - destruct IH as [values ->].
    + intros e He. apply (Hl e). by right.
    + by eexists.
Qed.

(** When [String(v)] throws, and what. *)
Lemma toString_throws v e : toString v = inl e → e = TypeError ∧ unprintable v.
Proof.
  revert e. induction v as [| | [|] | | |elems IH|props] using JsValue_elements_ind;
    intros e; try done.
  - simpl. destruct (sequence _) as [e'|parts] eqn:Hseq; [|done].
    cbn [mbind exn_bind]. intros [= ->].
    apply sequence_inl, list_elem_of_In, in_map_iff in Hseq as (x & Hx & Hin).
    apply list_elem_of_In in Hin.
    eapply Forall_forall in IH; [|exact Hin].
    assert (toString x = inl e) as Hthrow by (by destruct x).
    destruct (IH e Hthrow) as [-> Hun].
    split; [done|]. by eapply unprintable_array.
  - simpl. destruct (lookupProp _ props) as [x|] eqn:Hown; [|done].
    intros [= <-]. split; [done|]. by eapply unprintable_object.
Qed.

Lemma sequence_throws {A} (l : list (Exn + A)) e :
  inl e ∈ l → ∃ e', sequence l = inl e'.
Proof.
  induction l as [|r l IH]; [by intros ?%elem_of_nil|].
  intros [<-|Hin]%elem_of_cons; simpl; [by eexists|].
  destruct r as [e'|a]; [by eexists|]. cbn [mbind exn_bind].
  destruct (IH Hin) as [e' ->]. by eexists.
Qed.

Lemma toString_unprintable v : unprintable v → toString v = inl TypeError.
Proof.
  induction 1 as [props x Hown|elems e Hin _ IH]; simpl.
  - by rewrite Hown.
  - destruct (sequence_throws
                (List.map (λ e, match e with
                                | JUndefined | JNull => mret []
                                | _ => toString e
                                end) elems) TypeError) as [e' Hseq].
    { apply list_elem_of_In, in_map_iff. exists e.
      split; [|by apply list_elem_of_In]. by destruct e. }
    rewrite Hseq. cbn [mbind exn_bind].
    apply sequence_inl, list_elem_of_In, in_map_iff in Hseq as (x & Hx & _).
    assert (toString x = inl e') as Hthrow by (by destruct x).
    by apply toString_throws in Hthrow as [-> _].
Qed.

Lemma toString_returns v : ¬ unprintable v → ∃ s, toString v = inr s.
Proof.
  intros Hv. destruct (toString v) as [e|s] eqn:Hs; [|by eexists].
  by apply toString_throws in Hs as [_ ?].
Qed.

(** C3, as stated, fails: a non-string that is not falsy is converted
    with [String(input)], not replaced by the empty string; and where
    that conversion throws, nothing is returned at all. *)
Lemma sanitizeString_true_is_not_empty :
  isString (JBool true) = false
  ∧ Recipes.sanitizeString (JBool true) = inr (js "true")
  ∧ Comments.sanitizeString (JBool true) = inr (js "true")
  ∧ Recipes.sanitizeString (JBool true) ≠ inr []
  ∧ Comments.sanitizeString (JBool true) ≠ inr []
  ∧ Recipes.sanitizeString (JObj [ (js "toString", JNum (Dec false 1 1)) ])
    = inl TypeError
  ∧ Comments.sanitizeString (JObj [ (js "toString", JNum (Dec false 1 1)) ])
    = inl TypeError.
Proof. by repeat split. Qed.

(** C3, amended. An absent ([undefined], [null]) or otherwise falsy
    input gives the empty string; on any other non-string input the
    sanitizer does what [String(input)] does: it returns the string
    conversion, or throws the TypeError of the conversion, which
    happens exactly for an object with a property of its own called
    [toString] and for an array that holds such a value. *)
Theorem sanitizeString_of_non_string (v : JsValue) :
  isString v = false →
  (truthy v = false →
     Recipes.sanitizeString v = inr [] ∧ Comments.sanitizeString v = inr [])
  ∧ (truthy v = true →
       Recipes.sanitizeString v = toString v
       ∧ Comments.sanitizeString v = toString v
       ∧ (unprintable v → toString v = inl TypeError)
       ∧ (¬ unprintable v → ∃ s, toString v = inr s)).
Proof.
  intros Hv. unfold Recipes.sanitizeString, Comments.sanitizeString.
  split; intros ->; simpl; [done|].
  split; [by destruct v|]. split; [by destruct v|].
  split; [apply toString_unprintable|apply toString_returns].
Qed.

Lemma sanitizeString_of_non_string_witness :
  (Recipes.sanitizeString JUndefined = inr []
   ∧ Comments.sanitizeString JUndefined = inr [])
  ∧ (Recipes.sanitizeString JNull = inr [] ∧ Comments.sanitizeString JNull = inr [])
  ∧ (Recipes.sanitizeString (JNum (Dec false 42 2)) = inr (js "42")
     ∧ Comments.sanitizeString (JNum (Dec false 42 2)) = inr (js "42"))
  ∧ Comments.sanitizeString (JObj [ (js "toString", JNum (Dec false 1 1)) ])
    = inl TypeError.
Proof.
  split; [|split; [|split]].
  - apply (sanitizeString_of_non_string JUndefined); reflexivity.
  - apply (sanitizeString_of_non_string JNull); reflexivity.
  - destruct (proj2 (sanitizeString_of_non_string (JNum (Dec false 42 2)) eq_refl)
                eq_refl) as (Hr & Hc & _).
    by rewrite Hr, Hc.
  - destruct (proj2 (sanitizeString_of_non_string
                       (JObj [ (js "toString", JNum (Dec false 1 1)) ]) eq_refl)
                eq_refl) as (_ & -> & Hthrows & _).
    apply Hthrows. by eapply unprintable_object.
Defined.

Lemma sanitize_string_result n (sanitize : JsValue → Exn + jsstring) :
  (∀ S, sanitize (JStr S) = inr (clean n S)) →
  ∀ x,
    twice sanitize x = sanitize x ↔
    ∀ y, sanitize x = inr y →
         trim y = y ∧ (60%N ∉ y) ∧ (62%N ∉ y) ∧ (len y ≤ Z.of_N n)%Z.
Proof.
  intros Hstring x. unfold twice.
  destruct (sanitize x) as [e|y]; cbn [mbind exn_bind].
  - split; [by intros _ y|done].
  - rewrite Hstring. split.
    + intros [= Hfixed] ? [= <-]. apply clean_fixed in Hfixed as (Ht & Ha & Hl).
      split; [done|]. split; [|split; [|done]]; intros Hc; by apply Ha in Hc.
    + intros Hy. destruct (Hy y eq_refl) as (Ht & H60 & H62 & Hl).
      f_equal. apply clean_fixed. split; [done|]. split; [|done].
      intros c Hc. unfold isAngle.
      destruct (N.eqb_spec c 60) as [->|]; [done|].
      destruct (N.eqb_spec c 62) as [->|]; done.
Qed.

(** C5, as stated, fails: removing '<' exposes a space that only a
    second pass trims; and an array is converted without being
    sanitized, so its text is only cleaned by a second pass. *)
Lemma sanitizeString_twice_differs :
  Recipes.sanitizeString (JStr (js "< a")) = inr (js " a")
  ∧ twice Recipes.sanitizeString (JStr (js "< a")) = inr (js "a")
  ∧ twice Recipes.sanitizeString (JStr (js "< a"))
    ≠ Recipes.sanitizeString (JStr (js "< a"))
  ∧ twice Comments.sanitizeString (JStr (js "< a"))
    ≠ Comments.sanitizeString (JStr (js "< a"))
  ∧ Recipes.sanitizeString (JArr [JStr (js "<a>")]) = inr (js "<a>")
  ∧ twice Recipes.sanitizeString (JArr [JStr (js "<a>")]) = inr (js "a").
Proof. by repeat split. Qed.

(** C5, amended. For every input x, sanitizing twice gives the same as
    sanitizing once exactly when the first pass throws (the second
    then throws the same) or returns a string that has no white space
    at either end, no '<', no '>' and no more characters than the
    limit; for a string x the first pass already removes '<' and '>'
    and cuts to the limit, so the two agree exactly when the sanitized
    string neither starts nor ends with white space. *)
Theorem sanitizeString_twice (x : JsValue) :
  (twice Recipes.sanitizeString x = Recipes.sanitizeString x ↔
   ∀ y, Recipes.sanitizeString x = inr y →
        trim y = y ∧ (60%N ∉ y) ∧ (62%N ∉ y) ∧ (len y ≤ 10000)%Z)
  ∧ (twice Comments.sanitizeString x = Comments.sanitizeString x ↔
     ∀ y, Comments.sanitizeString x = inr y →
          trim y = y ∧ (60%N ∉ y) ∧ (62%N ∉ y) ∧ (len y ≤ 1000)%Z)
  ∧ (∀ S, x = JStr S →
       ∃ y z, Recipes.sanitizeString x = inr y
              ∧ Comments.sanitizeString x = inr z
              ∧ (twice Recipes.sanitizeString x = inr y ↔ trim y = y)
              ∧ (twice Comments.sanitizeString x = inr z ↔ trim z = z)).
Proof.
  split; [|split].
  - apply (sanitize_string_result 10000), recipes_sanitize_string.
  - apply (sanitize_string_result 1000), comments_sanitize_string.
  - intros S ->. unfold twice.
    rewrite recipes_sanitize_string, comments_sanitize_string.
    eexists _, _. split; [done|]. split; [done|]. cbn [mbind exn_bind].
    rewrite recipes_sanitize_string, comments_sanitize_string.
    split; (split; [intros [= H]; by apply clean_clean
                   |intros H; f_equal; by apply clean_clean]).
Qed.

Lemma sanitizeString_twice_witness :
  twice Recipes.sanitizeString (JStr (js " <b>pie</b> "))
  = Recipes.sanitizeString (JStr (js " <b>pie</b> "))
  ∧ twice Comments.sanitizeString (JObj [ (js "toString", JNull) ])
    = Comments.sanitizeString (JObj [ (js "toString", JNull) ]).
Proof.
  split.
  - apply (proj1 (sanitizeString_twice (JStr (js " <b>pie</b> ")))).
    intros y [= <-]. split; [reflexivity|].
    vm_compute. split; [|split; [|discriminate]]; intros Hc;
      repeat (apply elem_of_cons in Hc as [Hc|Hc]; [done|]);
      by apply elem_of_nil in Hc.
  - apply (proj1 (proj2 (sanitizeString_twice (JObj [ (js "toString", JNull) ])))).
    intros y Hy. discriminate Hy.
Defined.

(* ================================================================== *)
(** ** The comments handler                                            *)
(* ================================================================== *)

Lemma getProp_field v k x k' :
  getProp v k = inr x → getProp v (js k') = inr (field v k').
Proof. unfold field. by destruct v. Qed.

Lemma truthy_string_cons s : truthy (JStr s) = true → ∃ c s', s = c :: s'.
Proof. destruct s; [done|eauto]. Qed.

Lemma sanitize_throws_truthy v e :
  Comments.sanitizeString v = inl e → truthy v = true.
Proof. unfold Comments.sanitizeString. by destruct (truthy v). Qed.

Lemma sanitize_falsy v : truthy v = false → Comments.sanitizeString v = inr [].
Proof. unfold Comments.sanitizeString. by intros ->. Qed.

(** Routing of a POST in either handler. *)
Ltac post_request Hm :=
  rewrite Hm;
  change (eqb (js "POST") (js "OPTIONS")) with false;
  change (eqb (js "POST") (js "GET")) with false;
  change (eqb (js "POST") (js "POST")) with true;
  cbv iota.

Ltac run_store :=
  unfold try, mbind, M_bind, lift, mret, M_ret, throw.

(** A response whose [error] is not one of the two length errors. *)
Ltac other_error := intros ?; simplify_eq; by intros [|].

(** [addComment] up to the lookup of the recipe, for a body whose three
    fields are present and whose [recipeId] names a stored recipe. *)
Lemma addComment_found env req st id key r :
  method req = js "POST" →
  getProp (body req) (js "recipeId") = inr (JStr id) →
  documentPath id = Some [key] →
  recipes st !! key = Some r →
  truthy (field (body req) "username") = true →
  truthy (field (body req) "comment") = true →
  Comments.handler env req st
  = try (recipeId ← lift (Comments.sanitizeString (JStr id));
         username ← lift (Comments.sanitizeString (field (body req) "username"));
         comment ← lift (Comments.sanitizeString (field (body req) "comment"));
         let res := foldl setHeader ∅ Comments.corsHeaders in
         if ((len comment <? 1) || (1000 <? len comment))%Z then
           mret {| status := 400; headers := res;
                   json := [ (js "error", Str (js "Invalid comment length"));
                             (js "message",
                              Str (js "Comment must be between 1 and 1000 characters")) ] |}
         else if ((len username <? 1) || (100 <? len username))%Z then
           mret {| status := 400; headers := res;
                   json := [ (js "error", Str (js "Invalid username length"));
                             (js "message",
                              Str (js "Username must be between 1 and 100 characters")) ] |}
         else
           id ← Store.addComment env
                  {| Comment.recipeId := recipeId; Comment.username := username;
                     Comment.comment := comment;
                     Comment.createdAt := serverTimestamp env |};
           data ← getComment id;
           mret {| status := 201; headers := res;
                   json := [ (js "success", Bool true);
                             (js "message", Str (js "Comment added successfully"));
                             (js "comment", CommentJson id data) ] |})
        (λ error,
         mret {| status := 500;
                 headers := foldl setHeader ∅ Comments.corsHeaders;
                 json := [ (js "error", Str (js "Failed to add comment"));
                           (js "message", Message error) ] |}) st.
Proof.
  intros Hm Hid Hpath Hr Tu Tc.
  assert (Tid : truthy (JStr id) = true).
  { destruct id; [done|reflexivity]. }
  unfold Comments.handler. post_request Hm.
  unfold Comments.addComment.
  rewrite Hid, (getProp_field _ _ _ "username" Hid),
    (getProp_field _ _ _ "comment" Hid).
  run_store. rewrite Tid, Tu, Tc. cbn [negb orb doc]. rewrite Hpath.
  run_store. unfold getRecipe. cbv beta iota. cbn [recipeAt]. rewrite Hr.
  destruct (Comments.sanitizeString (JStr id)) as [e|rid]; [done|].
  destruct (Comments.sanitizeString (field (body req) "username")) as [e|u];
    [done|].
  destruct (Comments.sanitizeString (field (body req) "comment")) as [e|c];
    [done|].
  cbn [Comment.comment Comment.username].
  destruct (_ || _)%bool; [done|].
  destruct (_ || _)%bool; [done|].
  unfold addComment, getComment.
  destruct (comments st !! autoId env); done.
Qed.





(** C6, as stated, fails: the presence check comes before the
    existence check, so an empty username against an unknown recipe is
    answered with 400, not 404; and a [recipeId] of two path segments
    names no document at all: the store client refuses it and the
    answer is 500. *)
Lemma addComment_missing_field_before_existence :
  recipes Sample.empty !! js "nope" = None
  ∧ Comments.handler Sample.env
      (Sample.post "/api/comments"
         (JObj [ (js "recipeId", JStr (js "nope"));
                 (js "username", JStr []);
                 (js "comment", JStr (js "Delicious!")) ]))
      Sample.empty
    = (inr {| status := 400;
              headers := foldl setHeader ∅ Comments.corsHeaders;
              json := [ (js "error", Str (js "Missing required fields"));
                        (js "required",
                         Strs [js "recipeId"; js "username"; js "comment"]) ] |},
       Sample.empty)
  ∧ recipes Sample.onePie !! js "a/b" = None
  ∧ Comments.handler Sample.env
      (Sample.post "/api/comments"
         (JObj [ (js "recipeId", JStr (js "a/b"));
                 (js "username", JStr (js "Ann"));
                 (js "comment", JStr (js "Delicious!")) ]))
      Sample.onePie
    = (inr {| status := 500;
              headers := foldl setHeader ∅ Comments.corsHeaders;
              json := [ (js "error", Str (js "Failed to add comment"));
                        (js "message", Message InvalidArgument) ] |},
       Sample.onePie).
Proof. repeat split; vm_compute; reflexivity. Qed.

(** C6, amended. In a POST whose [recipeId], [username] and [comment]
    are all present (truthy), a [recipeId] string that is the path of a
    document and names no recipe is answered with 404 'Recipe not found'
    whatever the lengths of the other two; a [recipeId] that the store
    client refuses, a string that is not the path of a document or a
    value that is not a string, is answered with 500; and a length
    error is only ever reported for a recipe that exists. *)
Theorem addComment_checks_existence_before_lengths env req st :
  method req = js "POST" →
  (∀ id ref,
     getProp (body req) (js "recipeId") = inr (JStr id) →
     truthy (field (body req) "username") = true →
     truthy (field (body req) "comment") = true →
     documentPath id = Some ref →
     recipeAt st ref = None →
     Comments.handler env req st
     = (inr {| status := 404;
               headers := foldl setHeader ∅ Comments.corsHeaders;
               json := [ (js "error", Str (js "Recipe not found"));
                         (js "recipeId", Echo (JStr id)) ] |}, st))
  ∧ (∀ id,
       getProp (body req) (js "recipeId") = inr (JStr id) →
       id ≠ [] →
       truthy (field (body req) "username") = true →
       truthy (field (body req) "comment") = true →
       documentPath id = None →
       Comments.handler env req st
       = (inr {| status := 500;
                 headers := foldl setHeader ∅ Comments.corsHeaders;
                 json := [ (js "error", Str (js "Failed to add comment"));
                           (js "message", Message InvalidArgument) ] |}, st))
  ∧ (∀ v,
       getProp (body req) (js "recipeId") = inr v →
       isString v = false →
       truthy v = true →
       truthy (field (body req) "username") = true →
       truthy (field (body req) "comment") = true →
       Comments.handler env req st
       = (inr {| status := 500;
                 headers := foldl setHeader ∅ Comments.corsHeaders;
                 json := [ (js "error", Str (js "Failed to add comment"));
                           (js "message", Message InvalidArgument) ] |}, st))
  ∧ (∀ resp st',
       Comments.handler env req st = (inr resp, st') →
       errorOf resp = Some (js "Invalid comment length")
       ∨ errorOf resp = Some (js "Invalid username length") →
       ∃ id key r, getProp (body req) (js "recipeId") = inr (JStr id)
                   ∧ documentPath id = Some [key]
                   ∧ recipes st !! key = Some r).
Proof.
  intros Hm. split; [|split; [|split]].
  - intros id ref Hid Tu Tc Hpath Hnone.
    assert (Tid : truthy (JStr id) = true).
    { unfold documentPath in Hpath. by destruct id. }
    unfold Comments.handler. post_request Hm.
    unfold Comments.addComment.
    rewrite Hid, (getProp_field _ _ _ "username" Hid),
      (getProp_field _ _ _ "comment" Hid).
    run_store. rewrite Tid, Tu, Tc. cbn [negb orb doc]. rewrite Hpath.
    run_store. unfold getRecipe. cbv beta iota. by rewrite Hnone.
  - intros id Hid Hne Tu Tc Hpath.
    assert (Tid : truthy (JStr id) = true) by (by destruct id).
    unfold Comments.handler. post_request Hm.
    unfold Comments.addComment.
    rewrite Hid, (getProp_field _ _ _ "username" Hid),
      (getProp_field _ _ _ "comment" Hid).
    run_store. rewrite Tid, Tu, Tc. cbn [negb orb doc]. by rewrite Hpath.
  - intros v Hid Hv Tv Tu Tc.
    unfold Comments.handler. post_request Hm.
    unfold Comments.addComment.
    rewrite Hid, (getProp_field _ _ _ "username" Hid),
      (getProp_field _ _ _ "comment" Hid).
    run_store. rewrite Tv, Tu, Tc. cbn [negb orb]. by destruct v.
  - intros resp st'.
    unfold Comments.handler. post_request Hm.
    unfold Comments.addComment.
    destruct (getProp (body req) (js "recipeId")) as [e|rid] eqn:Hid.
    { run_store. other_error. }
    rewrite (getProp_field _ _ _ "username" Hid),
      (getProp_field _ _ _ "comment" Hid).
    run_store.
    destruct (negb (truthy rid) || _ || _)%bool; [other_error|].
    destruct rid as [| | | |id| |]; cbn [doc]; run_store; try other_error.
    destruct (documentPath id) as [ref|] eqn:Hpath; run_store; [|other_error].
    unfold getRecipe. cbv beta iota.
    destruct ref as [|key [|more ref]]; cbn [recipeAt]; try other_error.
    destruct (recipes st !! key) as [r|] eqn:Hr; [|other_error].
    intros _ _. eauto 6.
Qed.

(** A 2000-character username against an unknown recipe: 404. *)
Lemma addComment_checks_existence_before_lengths_witness :
  Comments.handler Sample.env
    (Sample.post "/api/comments"
       (JObj [ (js "recipeId", JStr (js "nope"));
               (js "username", JStr (replicate 2000 120%N));
               (js "comment", JStr (js "Delicious!")) ]))
    Sample.onePie
  = (inr {| status := 404;
            headers := foldl setHeader ∅ Comments.corsHeaders;
            json := [ (js "error", Str (js "Recipe not found"));
                      (js "recipeId", Echo (JStr (js "nope"))) ] |},
     Sample.onePie).
Proof.
  refine (proj1 (addComment_checks_existence_before_lengths Sample.env
                   _ Sample.onePie _) (js "nope") [js "nope"] _ _ _ _ _).
  - reflexivity.
  - reflexivity.
  - reflexivity.
  - reflexivity.
  - reflexivity.
  - vm_compute. reflexivity.
Defined.

(** A slash at the end of the path is ignored: the comment is stored,
    under the recipe id as it was sent. *)
Example addComment_trailing_slash :
  ∃ c st',
    Comments.handler Sample.env
      (Sample.post "/api/comments"
         (JObj [ (js "recipeId", JStr (js "r1/"));
                 (js "username", JStr (js "Ann"));
                 (js "comment", JStr (js "Delicious!")) ]))
      Sample.onePie
    = (inr {| status := 201;
              headers := foldl setHeader ∅ Comments.corsHeaders;
              json := [ (js "success", Bool true);
                        (js "message", Str (js "Comment added successfully"));
                        (js "comment", CommentJson (js "d1") (Some c)) ] |}, st')
    ∧ Comment.recipeId c = js "r1/".
Proof. eexists _, _. split; vm_compute; reflexivity. Qed.

(* ================================================================== *)
(** ** Headers of both handlers, and the recipes handler               *)
(* ================================================================== *)

Ltac sends_auto :=
  intros st; run_store;
  repeat (simplify_eq /=; try case_match); eauto.

Lemma getAllRecipes_sends res : sends res (Recipes.getAllRecipes res).
Proof. unfold Recipes.getAllRecipes, recipesByCreatedAtDesc. sends_auto. Qed.

Lemma getRecentRecipes_sends res limit :
  sends res (Recipes.getRecentRecipes res limit).
Proof.
  unfold Recipes.getRecentRecipes, recentRecipes, recipesByCreatedAtDesc.
  sends_auto.
Qed.

Lemma getRecipeById_sends res id : sends res (Recipes.getRecipeById res id).
Proof. unfold Recipes.getRecipeById, doc, getRecipe. sends_auto. Qed.

Lemma deleteRecipe_sends res id : sends res (Recipes.deleteRecipe res id).
Proof. unfold Recipes.deleteRecipe, doc, getRecipe, deleteRecipe. sends_auto. Qed.

Lemma createRecipe_sends env req res :
  sends res (Recipes.createRecipe env req res).
Proof. unfold Recipes.createRecipe, addRecipe, getRecipe. sends_auto. Qed.

(** Every response of the recipes handler to a method other than
    OPTIONS carries the three cross-origin headers. *)
Lemma recipes_handler_sends_cors env req :
  method req ≠ js "OPTIONS" →
  sends (foldl setHeader ∅ Recipes.corsHeaders) (Recipes.handler env req).
Proof.
  intros Hm st. unfold Recipes.handler, eqb.
  rewrite bool_decide_eq_false_2 by done.
  set (res := foldl setHeader ∅ Recipes.corsHeaders).
  unfold try at 1, mbind at 1, M_bind at 1.
  destruct (Recipes.route req) as [e|r]; [by eauto|].
  unfold lift, mret, M_ret.
  destruct r.
  - destruct (getRecentRecipes_sends res limit st) as (? & ? & -> & ?); eauto.
  - destruct (getRecipeById_sends res recipeId st) as (? & ? & -> & ?); eauto.
  - destruct (getAllRecipes_sends res st) as (? & ? & -> & ?); eauto.
  - destruct (createRecipe_sends env req res st) as (? & ? & -> & ?); eauto.
  - destruct (deleteRecipe_sends res recipeId st) as (? & ? & -> & ?); eauto.
  - eauto.
Qed.

Lemma getComments_sends res recipeId :
  sends res (Comments.getComments res recipeId).
Proof. unfold Comments.getComments, commentsOfRecipe. sends_auto. Qed.

Lemma addComment_sends env req res :
  sends res (Comments.addComment env req res).
Proof.
  unfold Comments.addComment, doc, getRecipe, addComment, getComment.
  sends_auto.
Qed.

(** The same for the comments handler. *)
Lemma comments_handler_sends_cors env req :
  method req ≠ js "OPTIONS" →
  sends (foldl setHeader ∅ Comments.corsHeaders) (Comments.handler env req).
Proof.
  intros Hm st. unfold Comments.handler, eqb at 1.
  rewrite bool_decide_eq_false_2 by done.
  set (res := foldl setHeader ∅ Comments.corsHeaders).
  unfold try at 1.
  destruct (eqb (method req) (js "GET")).
  - unfold mbind at 1, M_bind at 1.
    destruct (getProp (query req) (js "recipeId")) as [e|v]; [by eauto|].
    unfold lift, mret, M_ret.
    destruct (getComments_sends res v st) as (? & ? & -> & ?); eauto.
  - destruct (eqb (method req) (js "POST")).
    + destruct (addComment_sends env req res st) as (? & ? & -> & ?); eauto.
    + eauto.
Qed.

Lemma cors_headers_set :
  foldl setHeader ∅ Recipes.corsHeaders !! js "Access-Control-Allow-Origin"
  = Some (js "*")
  ∧ foldl setHeader ∅ Recipes.corsHeaders !! js "Access-Control-Allow-Methods"
    = Some (js "GET, POST, PUT, DELETE, OPTIONS")
  ∧ foldl setHeader ∅ Recipes.corsHeaders !! js "Access-Control-Allow-Headers"
    = Some (js "Content-Type")
  ∧ foldl setHeader ∅ Comments.corsHeaders !! js "Access-Control-Allow-Origin"
    = Some (js "*")
  ∧ foldl setHeader ∅ Comments.corsHeaders !! js "Access-Control-Allow-Methods"
    = Some (js "GET, POST, OPTIONS")
  ∧ foldl setHeader ∅ Comments.corsHeaders !! js "Access-Control-Allow-Headers"
    = Some (js "Content-Type").
Proof. repeat split; vm_compute; reflexivity. Qed.

(** C7 fails on the code for the preflight: both handlers answer an
    OPTIONS request with 200 [{ ok: true }] before the loop that sets
    the cross-origin headers, so that response carries none of them. *)
Theorem options_preflight_without_cors_headers env url query body st :
  Recipes.handler env
    {| method := js "OPTIONS"; url := url; query := query; body := body |} st
  = (inr {| status := 200; headers := ∅; json := [ (js "ok", Bool true) ] |}, st)
  ∧ Comments.handler env
      {| method := js "OPTIONS"; url := url; query := query; body := body |} st
    = (inr {| status := 200; headers := ∅; json := [ (js "ok", Bool true) ] |}, st)
  ∧ (∅ : gmap jsstring jsstring) !! js "Access-Control-Allow-Origin" = None.
Proof. repeat split. Qed.

(** The presence check of [createRecipe]: when the body is an object
    and one of the three required fields is falsy (absent or empty),
    the answer is 400 and the store is left as it was. *)
Lemma createRecipe_requires_fields env req st x :
  method req = js "POST" →
  getProp (body req) (js "name") = inr x →
  truthy (field (body req) "name") && truthy (field (body req) "ingredients")
    && truthy (field (body req) "instructions") = false →
  Recipes.handler env req st
  = (inr {| status := 400;
            headers := foldl setHeader ∅ Recipes.corsHeaders;
            json := [ (js "error", Str (js "Missing required fields"));
                      (js "required",
                       Strs [js "name"; js "ingredients"; js "instructions"]) ] |},
     st).
Proof.
  intros Hm Hx Hfalsy.
  unfold Recipes.handler, Recipes.route. post_request Hm.
  cbn [mbind exn_bind mret exn_ret lift andb]. run_store.
  unfold Recipes.createRecipe. run_store.
  rewrite (getProp_field _ _ _ "name" Hx),
    (getProp_field _ _ _ "ingredients" Hx),
    (getProp_field _ _ _ "instructions" Hx).
  destruct (truthy (field (body req) "name")),
    (truthy (field (body req) "ingredients")),
    (truthy (field (body req) "instructions")); done.
Qed.

Lemma sanitizable_fields body :
  sanitizable body →
  ∃ n c p k i s t,
    Recipes.sanitizeString (field body "name") = inr n
    ∧ Recipes.sanitizeString (field body "category") = inr c
    ∧ Recipes.sanitizeString (field body "prepTime") = inr p
    ∧ Recipes.sanitizeString (field body "cookTime") = inr k
    ∧ Recipes.sanitizeString (field body "ingredients") = inr i
    ∧ Recipes.sanitizeString (field body "instructions") = inr s
    ∧ Recipes.sanitizeString (field body "notes") = inr t.
Proof.
  unfold sanitizable, recipeFields. rewrite !Forall_cons.
  intros ([n ?] & [c ?] & [p ?] & [k ?] & [i ?] & [s ?] & [t ?] & _).
  by exists n, c, p, k, i, s, t.
Qed.

(** [createRecipe] on a body whose required fields are present and
    whose fields can all be sanitized, when the drawn id is free. *)
Lemma createRecipe_run env req st x n c p k i s t :
  method req = js "POST" →
  getProp (body req) (js "name") = inr x →
  truthy (field (body req) "name") = true →
  truthy (field (body req) "ingredients") = true →
  truthy (field (body req) "instructions") = true →
  Recipes.sanitizeString (field (body req) "name") = inr n →
  Recipes.sanitizeString (field (body req) "category") = inr c →
  Recipes.sanitizeString (field (body req) "prepTime") = inr p →
  Recipes.sanitizeString (field (body req) "cookTime") = inr k →
  Recipes.sanitizeString (field (body req) "ingredients") = inr i →
  Recipes.sanitizeString (field (body req) "instructions") = inr s →
  Recipes.sanitizeString (field (body req) "notes") = inr t →
  recipes st !! autoId env = None →
  Recipes.handler env req st
  = (inr {| status := 201;
            headers := foldl setHeader ∅ Recipes.corsHeaders;
            json := [ (js "success", Bool true);
                      (js "message", Str (js "Recipe created successfully"));
                      (js "recipe",
                       RecipeJson (autoId env)
                         (Some (recipeOf env n c p k i s t))) ] |},
     {| recipes := <[autoId env := recipeOf env n c p k i s t]> (recipes st);
        comments := comments st |}).
Proof.
  intros Hm Hx Tn Ti Ts Hn Hc Hp Hk Hi Hs Ht Hfree.
  unfold Recipes.handler, Recipes.route. post_request Hm.
  cbn [mbind exn_bind mret exn_ret lift andb]. run_store.
  unfold Recipes.createRecipe. run_store.
  rewrite (getProp_field _ _ _ "name" Hx),
    (getProp_field _ _ _ "ingredients" Hx),
    (getProp_field _ _ _ "instructions" Hx),
    (getProp_field _ _ _ "category" Hx),
    (getProp_field _ _ _ "prepTime" Hx),
    (getProp_field _ _ _ "cookTime" Hx),
    (getProp_field _ _ _ "notes" Hx).
  rewrite Tn, Ti, Ts. cbn [negb orb].
  rewrite Hn, Hc, Hp, Hk, Hi, Hs, Ht.
  unfold addRecipe, getRecipe. cbv beta. rewrite Hfree. cbn [recipes recipeAt].
  by rewrite lookup_insert_eq.
Qed.

(** An accepted POST stores the sanitized values of the three required
    fields, which were checked before being sanitized. *)
Lemma createRecipe_stores_sanitized env req st x :
  method req = js "POST" →
  getProp (body req) (js "name") = inr x →
  truthy (field (body req) "name") = true →
  truthy (field (body req) "ingredients") = true →
  truthy (field (body req) "instructions") = true →
  sanitizable (body req) →
  recipes st !! autoId env = None →
  ∃ d,
    Recipes.handler env req st
    = (inr {| status := 201;
              headers := foldl setHeader ∅ Recipes.corsHeaders;
              json := [ (js "success", Bool true);
                        (js "message", Str (js "Recipe created successfully"));
                        (js "recipe", RecipeJson (autoId env) (Some d)) ] |},
       {| recipes := <[autoId env := d]> (recipes st);
          comments := comments st |})
    ∧ Recipes.sanitizeString (field (body req) "name") = inr (Recipe.name d)
    ∧ Recipes.sanitizeString (field (body req) "ingredients")
      = inr (Recipe.ingredients d)
    ∧ Recipes.sanitizeString (field (body req) "instructions")
      = inr (Recipe.instructions d).
Proof.
  intros Hm Hx Tn Ti Ts Hsan Hfree.
  destruct (sanitizable_fields _ Hsan)
    as (n & c & p & k & i & s & t & Hn & Hc & Hp & Hk & Hi & Hs & Ht).
  exists (recipeOf env n c p k i s t).
  split; [by eapply createRecipe_run|]. done.
Qed.

(** C2 fails on the code: the required fields are tested for presence
    before they are sanitized and not again after, so a name of three
    spaces is accepted with 201 and stored as the empty string. *)
Theorem createRecipe_stores_empty_name :
  Recipes.handler Sample.env
    (Sample.post "/api/recipes"
       (JObj [ (js "name", JStr (js "   "));
               (js "ingredients", JStr (js "flour"));
               (js "instructions", JStr (js "Mix and bake.")) ]))
    Sample.empty
  = (inr {| status := 201;
            headers := foldl setHeader ∅ Recipes.corsHeaders;
            json := [ (js "success", Bool true);
                      (js "message", Str (js "Recipe created successfully"));
                      (js "recipe", RecipeJson (js "d1") (Some Sample.nameless)) ] |},
     {| recipes := {[ js "d1" := Sample.nameless ]}; comments := ∅ |})
  ∧ Recipe.name Sample.nameless = [].
Proof. split; vm_compute; reflexivity. Qed.

#[local] Instance newerRecipe_total : Total newerRecipe.
Proof. intros a b. unfold newerRecipe. lia. Qed.

#[local] Instance newerRecipe_trans : Transitive newerRecipe.
Proof. intros a b c. unfold newerRecipe. lia. Qed.

Lemma recipeIdOf_None url :
  Recipes.recipeIdOf url = None ↔
  Recipes.lastPartOf url = [] ∨ Recipes.lastPartOf url = js "recipes".
Proof.
  unfold Recipes.recipeIdOf, truthy, eqb.
  repeat case_bool_decide; simpl; intuition congruence.
Qed.

Lemma recipeIdOf_Some url id :
  Recipes.recipeIdOf url = Some id ↔
  Recipes.lastPartOf url = id ∧ id ≠ [] ∧ id ≠ js "recipes".
Proof.
  unfold Recipes.recipeIdOf, truthy, eqb.
  repeat case_bool_decide; simpl; intuition congruence.
Qed.

(** C10, as stated, fails: with a [recent] parameter the request is
    routed to the limited query first, so a GET of [/api/recipes?recent=1]
    over two recipes is answered with the newest one only. *)
Lemma get_recent_is_not_the_full_list :
  Recipes.lastPartOf (js "/api/recipes?recent=1") = js "recipes"
  ∧ size (recipes Sample.pieAndSoup) = 2
  ∧ Recipes.handler Sample.env
      (Sample.get "/api/recipes?recent=1" (JObj [ (js "recent", JStr (js "1")) ]))
      Sample.pieAndSoup
    = (inr {| status := 200;
              headers := foldl setHeader ∅ Recipes.corsHeaders;
              json := [ (js "success", Bool true);
                        (js "count", Count 1);
                        (js "recipes", RecipesJson [ (js "r2", Sample.soup) ]) ] |},
       Sample.pieAndSoup).
Proof. repeat split; vm_compute; reflexivity. Qed.

(** C10, amended. A GET whose query has no (truthy) [recent] parameter
    and whose path ends in an empty segment or in ['recipes'] is
    answered with 200 and all the recipes, newest first; and a request
    is only ever routed to the lookup by id when it is a GET whose last
    path segment is that id, non-empty and different from ['recipes']. *)
Theorem get_without_id_lists_all env req st :
  (∀ recent,
     method req = js "GET" →
     getProp (query req) (js "recent") = inr recent →
     truthy recent = false →
     Recipes.lastPartOf (url req) = []
     ∨ Recipes.lastPartOf (url req) = js "recipes" →
     ∃ all,
       Recipes.handler env req st
       = (inr {| status := 200;
                 headers := foldl setHeader ∅ Recipes.corsHeaders;
                 json := [ (js "success", Bool true);
                           (js "count", Count (length all));
                           (js "recipes", RecipesJson all) ] |}, st)
       ∧ all ≡ₚ map_to_list (recipes st)
       ∧ StronglySorted newerRecipe all)
  ∧ (∀ id,
       Recipes.route req = inr (Recipes.RecipeById id) →
       method req = js "GET"
       ∧ Recipes.lastPartOf (url req) = id ∧ id ≠ [] ∧ id ≠ js "recipes").
Proof.
  split.
  - intros recent Hm Hq Hrecent Hlast. apply recipeIdOf_None in Hlast.
    exists (merge_sort newerRecipe (map_to_list (recipes st))).
    split; [|split].
    + unfold Recipes.handler, Recipes.route. rewrite Hm, Hlast.
      change (eqb (js "GET") (js "OPTIONS")) with false.
      change (eqb (js "GET") (js "GET")) with true.
      cbv iota. rewrite Hq. cbn [mbind exn_bind mret exn_ret].
      rewrite Hrecent. reflexivity.
    + apply merge_sort_Permutation.
    + apply StronglySorted_merge_sort; apply _.
  - intros id. unfold Recipes.route.
    destruct (eqb (method req) (js "GET")) eqn:Hm.
    + apply bool_decide_eq_true in Hm.
      destruct (getProp (query req) (js "recent")) as [e|recent];
        cbn [mbind exn_bind mret exn_ret]; [done|].
      destruct (truthy recent); cbn [andb];
        [by destruct (parseInt recent)|].
      destruct (Recipes.recipeIdOf (url req)) as [id'|] eqn:Hid; [|done].
      intros [= <-]. split; [done|]. by apply recipeIdOf_Some.
    + cbn [mbind exn_bind mret exn_ret andb].
      repeat case_match; done.
Qed.

(** A trailing slash, no query. *)
Lemma get_without_id_lists_all_witness :
  ∃ all,
    Recipes.handler Sample.env (Sample.get "/api/recipes/" (JObj []))
      Sample.pieAndSoup
    = (inr {| status := 200;
              headers := foldl setHeader ∅ Recipes.corsHeaders;
              json := [ (js "success", Bool true);
                        (js "count", Count (length all));
                        (js "recipes", RecipesJson all) ] |},
       Sample.pieAndSoup)
    ∧ all ≡ₚ map_to_list (recipes Sample.pieAndSoup)
    ∧ StronglySorted newerRecipe all.
Proof.
  refine (proj1 (get_without_id_lists_all Sample.env
                   (Sample.get "/api/recipes/" (JObj [])) Sample.pieAndSoup)
            JUndefined _ _ _ _).
  - reflexivity.
  - reflexivity.
  - reflexivity.
  - left. reflexivity.
Defined.

(* ================================================================== *)
(** ** The browser script: relative times                              *)
(* ================================================================== *)

Section RelativeTime.

Variable now : Z.
Variable parseDate : jsstring → option Z.
Variable toLocaleDateString : Z → jsstring.

#[local] Abbreviation formatRelativeTime :=
  (App.formatRelativeTime now parseDate toLocaleDateString).
#[local] Abbreviation formatDate := (App.formatDate parseDate toLocaleDateString).
#[local] Abbreviation newDate := (App.newDate parseDate).

Lemma formatDate_truthy timestamp :
  truthy timestamp = true →
  formatDate timestamp
  = match newDate timestamp with
    | inr (Some date) => toLocaleDateString date
    | inr None => js "Invalid Date"
    | inl _ => js "Recently added"
    end.
Proof.
  intros H. unfold App.formatDate. rewrite H. cbn [negb].
  by destruct (App.newDate parseDate timestamp) as [e|[date|]].
Qed.

(** [new Date(v)] throws exactly when [String(v)] does, and never on a
    string, a number, a boolean or [null]. *)
Lemma newDate_throws timestamp :
  (∃ e, newDate timestamp = inl e) ↔ unprintable timestamp.
Proof.
  split.
  - intros [e He]. destruct timestamp; try done; unfold App.newDate in He.
    + destruct (toString (JArr elems)) as [e'|s] eqn:Hs; [|done].
      by apply toString_throws in Hs as [_ ?].
    + destruct (toString (JObj props)) as [e'|s] eqn:Hs; [|done].
      by apply toString_throws in Hs as [_ ?].
  - intros Hun. pose proof (toString_unprintable _ Hun) as Hs.
    destruct Hun; unfold App.newDate; rewrite Hs; by eexists.
Qed.

(** C8 holds for the relative and absolute forms and fails on the code
    for a timestamp that does not parse.  [formatRelativeTime] gives
    'just now' for an absent (falsy) timestamp and for a date less than
    60 seconds old, 'N minutes ago', 'N hours ago' or 'N days ago' for
    an age under 7 days, and the absolute date of [formatDate] from 7
    days on.  For a timestamp that makes an Invalid Date, such as a text
    that is no date, neither function reaches its [catch] branch,
    because [new Date] does not throw on it: both return the text
    'Invalid Date' that the engine prints for such a date, not their
    fallbacks 'recently' and 'Recently added'.  The fallbacks are
    returned only when the conversion of the timestamp throws. *)
Theorem formatRelativeTime_cases (timestamp : JsValue) :
  (truthy timestamp = false → formatRelativeTime timestamp = js "just now")
  ∧ (∀ date,
       truthy timestamp = true →
       newDate timestamp = inr (Some date) →
       ((secondsSince now date < 60)%Z →
        formatRelativeTime timestamp = js "just now")
       ∧ ((60 ≤ secondsSince now date < 3600)%Z →
          formatRelativeTime timestamp
          = integerToString (secondsSince now date / 60) ++ js " minutes ago")
       ∧ ((3600 ≤ secondsSince now date < 86400)%Z →
          formatRelativeTime timestamp
          = integerToString (secondsSince now date / 3600) ++ js " hours ago")
       ∧ ((86400 ≤ secondsSince now date < 604800)%Z →
          formatRelativeTime timestamp
          = integerToString (secondsSince now date / 86400) ++ js " days ago")
       ∧ ((604800 ≤ secondsSince now date)%Z →
          formatRelativeTime timestamp = formatDate timestamp
          ∧ formatDate timestamp = toLocaleDateString date))
  ∧ (truthy timestamp = true →
     newDate timestamp = inr None →
     formatRelativeTime timestamp = js "Invalid Date"
     ∧ formatDate timestamp = js "Invalid Date")
  ∧ (∀ s, timestamp = JStr s → s ≠ [] → parseDate s = None →
          formatRelativeTime timestamp = js "Invalid Date"
          ∧ formatRelativeTime timestamp ≠ js "recently"
          ∧ formatDate timestamp = js "Invalid Date"
          ∧ formatDate timestamp ≠ js "Recently added")
  ∧ (unprintable timestamp →
     formatRelativeTime timestamp = js "recently"
     ∧ formatDate timestamp = js "Recently added").
Proof using Type.
  assert (Hinvalid : truthy timestamp = true →
                     App.newDate parseDate timestamp = inr None →
                     formatRelativeTime timestamp = js "Invalid Date"
                     ∧ formatDate timestamp = js "Invalid Date").
  { intros Ht Hd. rewrite (formatDate_truthy _ Ht).
    unfold App.formatRelativeTime. rewrite Ht, Hd. cbn [negb mbind exn_bind].
    by rewrite (formatDate_truthy _ Ht), Hd. }
  split; [by unfold App.formatRelativeTime; intros ->|].
  split; [|split; [done|split]].
  - intros date Ht Hd. unfold App.formatRelativeTime.
    rewrite Ht, Hd. cbn [negb mbind exn_bind mret exn_ret App.catch].
    fold (secondsSince now date).
    rewrite (formatDate_truthy _ Ht), Hd.
    split; [|split; [|split; [|split]]]; intros Hage;
      repeat match goal with
             | |- context [(?a <? ?b)%Z] => destruct (Z.ltb_spec a b); try lia
             end; done.
  - intros s -> Hs Hparse.
    destruct Hinvalid as [-> ->].
    + by destruct s.
    + simpl. by rewrite Hparse.
    + done.
  - intros Hun.
    assert (Ht : truthy timestamp = true) by (by destruct Hun).
    apply newDate_throws in Hun as [e He].
    rewrite (formatDate_truthy _ Ht), He.
    unfold App.formatRelativeTime. by rewrite Ht, He.
Qed.

End RelativeTime.

(** Ten minutes after 1.7e12 ms; a text that is no date; an absent
    timestamp; and an object on which the conversion throws. *)
Lemma formatRelativeTime_cases_witness :
  App.formatRelativeTime 1700000600000 (λ _, None) (λ _, js "November 14, 2023")
    (JNum (Dec false 17 13))
  = js "10 minutes ago"
  ∧ App.formatRelativeTime 1700000600000 (λ _, None) (λ _, js "November 14, 2023")
      (JStr (js "not a date"))
    = js "Invalid Date"
  ∧ App.formatRelativeTime 1700000600000 (λ _, None) (λ _, js "November 14, 2023")
      JUndefined
    = js "just now"
  ∧ App.formatRelativeTime 1700000600000 (λ _, None) (λ _, js "November 14, 2023")
      (JObj [ (js "toString", JNull) ])
    = js "recently"
  ∧ App.formatRelativeTime 1700000600000 (λ _, None) (λ _, js "November 14, 2023")
      (JObj [ (js "seconds", JNum (Dec false 17 10)) ])
    = js "Invalid Date".
Proof.
  split; [|split; [|split; [|split]]].
  - refine (proj1 (proj2 (proj1 (proj2
      (formatRelativeTime_cases 1700000600000 (λ _, None)
         (λ _, js "November 14, 2023") (JNum (Dec false 17 13))))
      1700000000000%Z _ _)) _).
    + reflexivity.
    + reflexivity.
    + vm_compute. split; [discriminate|reflexivity].
  - refine (proj1 (proj1 (proj2 (proj2 (proj2
      (formatRelativeTime_cases 1700000600000 (λ _, None)
         (λ _, js "November 14, 2023") (JStr (js "not a date"))))))
      (js "not a date") _ _ _)).
    + reflexivity.
    + discriminate.
    + reflexivity.
  - refine (proj1
      (formatRelativeTime_cases 1700000600000 (λ _, None)
         (λ _, js "November 14, 2023") JUndefined) _).
    reflexivity.
  - refine (proj1 (proj2 (proj2 (proj2 (proj2
      (formatRelativeTime_cases 1700000600000 (λ _, None)
         (λ _, js "November 14, 2023") (JObj [ (js "toString", JNull) ])))))
      _)).
    by eapply unprintable_object.
  - refine (proj1 (proj1 (proj2 (proj2
      (formatRelativeTime_cases 1700000600000 (λ _, None)
         (λ _, js "November 14, 2023")
         (JObj [ (js "seconds", JNum (Dec false 17 10)) ])))) _ _)).
    + reflexivity.
    + reflexivity.
Defined.

(* ================================================================== *)
(** ** The browser script: search and filter                           *)
(* ================================================================== *)







Section Search.

Variable toLowerCase : jsstring → jsstring.
Hypothesis toLowerCase_nil : toLowerCase [] = [].






End Search.



(* ================================================================== *)
(** ** More on the sanitizers *)
(* ================================================================== *)

(** X1. What a sanitizer returns for a string is a subsequence of it:
    characters are dropped, never added, changed or reordered. *)
Theorem sanitizeString_keeps_order (S : jsstring) :
  (∃ r, Recipes.sanitizeString (JStr S) = inr r ∧ r `sublist_of` S)
  ∧ (∃ r, Comments.sanitizeString (JStr S) = inr r ∧ r `sublist_of` S).
Proof.
  rewrite recipes_sanitize_string, comments_sanitize_string.
  split; eexists; (split; [reflexivity|]); apply clean_sublist.
Qed.

(** X2. A string passes through a sanitizer unchanged exactly when it
    has no white space at either end, no '<', no '>' and at most
    10000 (recipes) or 1000 (comments) characters. *)
Theorem sanitizeString_unchanged_iff (S : jsstring) :
  (Recipes.sanitizeString (JStr S) = inr S ↔
   trim S = S ∧ (60%N ∉ S) ∧ (62%N ∉ S) ∧ (len S ≤ 10000)%Z)
  ∧ (Comments.sanitizeString (JStr S) = inr S ↔
     trim S = S ∧ (60%N ∉ S) ∧ (62%N ∉ S) ∧ (len S ≤ 1000)%Z).
Proof.
  rewrite recipes_sanitize_string, comments_sanitize_string.
  assert (Hangle : (∀ c, c ∈ S → isAngle c = false) ↔ (60%N ∉ S) ∧ (62%N ∉ S)).
  { split.
    - intros H. split; intros Hc; by apply H in Hc.
    - intros [H1 H2] c Hc. unfold isAngle.
      destruct (N.eqb_spec c 60) as [->|]; [done|].
      destruct (N.eqb_spec c 62) as [->|]; done. }
  assert (Hinr : ∀ n, inr (clean n S) = (inr S : Exn + jsstring) ↔ clean n S = S).
  { intros n. split; [by intros [= ?]|by intros ->]. }
  split; rewrite Hinr, clean_fixed, Hangle; tauto.
Qed.

Lemma sanitizeString_unchanged_iff_witness :
  Recipes.sanitizeString (JStr (js "Grandma's Pie")) = inr (js "Grandma's Pie").
Proof.
  apply (proj1 (sanitizeString_unchanged_iff (js "Grandma's Pie"))).
  split; [reflexivity|]. repeat split.
  - vm_compute. intros Hc.
    repeat (apply elem_of_cons in Hc as [Hc|Hc]; [done|]).
    by apply elem_of_nil in Hc.
  - vm_compute. intros Hc.
    repeat (apply elem_of_cons in Hc as [Hc|Hc]; [done|]).
    by apply elem_of_nil in Hc.
  - vm_compute. discriminate.
Defined.

(* ================================================================== *)
(** ** The browser script: escaping *)
(* ================================================================== *)

Lemma escapeChar_cases c :
  (c = 38%N ∧ App.escapeChar c = js "&amp;")
  ∨ (c = 60%N ∧ App.escapeChar c = js "&lt;")
  ∨ (c = 62%N ∧ App.escapeChar c = js "&gt;")
  ∨ (c = 34%N ∧ App.escapeChar c = js "&quot;")
  ∨ (c = 39%N ∧ App.escapeChar c = js "&#039;")
  ∨ (c ≠ 38%N ∧ c ≠ 60%N ∧ c ≠ 62%N ∧ c ≠ 34%N ∧ c ≠ 39%N
     ∧ App.escapeChar c = [c]).
Proof.
  unfold App.escapeChar.
  destruct (N.eqb_spec c 38) as [->|]; [by left|].
  destruct (N.eqb_spec c 60) as [->|]; [by right; left|].
  destruct (N.eqb_spec c 62) as [->|]; [by right; right; left|].
  destruct (N.eqb_spec c 34) as [->|]; [by right; right; right; left|].
  destruct (N.eqb_spec c 39) as [->|]; [by right; right; right; right; left|].
  by repeat right.
Qed.

Lemma escapeText_cons c s :
  App.escapeText (c :: s) = App.escapeChar c ++ App.escapeText s.
Proof. reflexivity. Qed.

(** The escaped text holds none of the four characters that open or
    close markup or an attribute value. *)
Lemma escapeText_safe s c :
  c ∈ App.escapeText s → c ≠ 60%N ∧ c ≠ 62%N ∧ c ≠ 34%N ∧ c ≠ 39%N.
Proof.
  induction s as [|a s IH]; [by intros ?%elem_of_nil|].
  rewrite escapeText_cons, elem_of_app. intros [Hc|Hc]; [|by apply IH].
  destruct (escapeChar_cases a)
    as [[-> E]|[[-> E]|[[-> E]|[[-> E]|[[-> E]|(?&?&?&?&?&E)]]]]];
    rewrite E in Hc.
  1-5: vm_compute in Hc;
    repeat (apply elem_of_cons in Hc as [->|Hc]; [done|]);
    by apply elem_of_nil in Hc.
  apply list_elem_of_singleton in Hc as ->. done.
Qed.

Lemma escapeChar_cancel a b (s t : jsstring) :
  App.escapeChar a ++ s = App.escapeChar b ++ t → a = b ∧ s = t.
Proof.
  destruct (escapeChar_cases a)
    as [[-> Ea]|[[-> Ea]|[[-> Ea]|[[-> Ea]|[[-> Ea]|(?&?&?&?&?&Ea)]]]]];
  destruct (escapeChar_cases b)
    as [[-> Eb]|[[-> Eb]|[[-> Eb]|[[-> Eb]|[[-> Eb]|(?&?&?&?&?&Eb)]]]]];
  rewrite ?Ea, ?Eb; unfold js; simpl; intros Heq; by simplify_eq.
Qed.

Lemma escapeChar_not_nil c : App.escapeChar c ≠ [].
Proof.
  by destruct (escapeChar_cases c)
    as [[-> E]|[[-> E]|[[-> E]|[[-> E]|[[-> E]|(?&?&?&?&?&E)]]]]]; rewrite E.
Qed.

Lemma escapeText_inj s t : App.escapeText s = App.escapeText t → s = t.
Proof.
  revert t. induction s as [|a s IH]; intros [|b t]; try done.
  - rewrite escapeText_cons. intros H. symmetry in H.
    apply app_eq_nil in H as [H _]. by apply escapeChar_not_nil in H.
  - rewrite escapeText_cons. intros H.
    apply app_eq_nil in H as [H _]. by apply escapeChar_not_nil in H.
  - rewrite !escapeText_cons. intros [-> H]%escapeChar_cancel.
    f_equal. by apply IH.
Qed.

Lemma escapeText_length s : length s ≤ length (App.escapeText s).
Proof.
  induction s as [|a s IH]; [done|].
  rewrite escapeText_cons, length_app. simpl.
  assert (1 ≤ length (App.escapeChar a)); [|lia].
  pose proof (escapeChar_not_nil a). destruct (App.escapeChar a); simpl; [done|lia].
Qed.

Lemma escapeText_plain s :
  App.escapeText s = s ↔
  (38%N ∉ s) ∧ (60%N ∉ s) ∧ (62%N ∉ s) ∧ (34%N ∉ s) ∧ (39%N ∉ s).
Proof.
  induction s as [|a s IH].
  - split; [|done]. intros _. repeat split; by intros ?%elem_of_nil.
  - rewrite escapeText_cons, !not_elem_of_cons.
    destruct (escapeChar_cases a)
      as [[-> E]|[[-> E]|[[-> E]|[[-> E]|[[-> E]|(?&?&?&?&?&E)]]]]]; rewrite E.
    1-5: split; [|intuition congruence]; intros Heq; exfalso;
      apply (f_equal length) in Heq; rewrite length_app in Heq;
      pose proof (escapeText_length s); simpl in Heq; lia.
    simpl. split.
    + intros [= Heq]. apply IH in Heq. intuition congruence.
    + intros Hs. f_equal. apply IH. tauto.
Qed.

(** X4. What [escapeHtml] returns holds no '<', '>', double quote or
    apostrophe. *)
Theorem escapeHtml_output_is_inert (text : JsValue) (html : jsstring) :
  App.escapeHtml text = inr html →
  (60%N ∉ html) ∧ (62%N ∉ html) ∧ (34%N ∉ html) ∧ (39%N ∉ html).
Proof.
  unfold App.escapeHtml. destruct (truthy text); simpl.
  - destruct text; try done. intros [= <-].
    repeat split; intros Hc; apply escapeText_safe in Hc; tauto.
  - intros [= <-]. repeat split; by intros ?%elem_of_nil.
Qed.

Lemma escapeHtml_output_is_inert_witness :
  App.escapeHtml (JStr (js "<b>Tom & 'Jerry'</b>"))
  = inr (js "&lt;b&gt;Tom &amp; &#039;Jerry&#039;&lt;/b&gt;")
  ∧ (60%N ∉ js "&lt;b&gt;Tom &amp; &#039;Jerry&#039;&lt;/b&gt;").
Proof.
  split; [reflexivity|].
  apply (escapeHtml_output_is_inert (JStr (js "<b>Tom & 'Jerry'</b>"))).
  reflexivity.
Defined.

(** X5. [escapeHtml] loses nothing: two strings with the same escaped
    form are the same string. *)
Theorem escapeHtml_injective (s t : jsstring) :
  App.escapeHtml (JStr s) = App.escapeHtml (JStr t) → s = t.
Proof.
  assert (H : ∀ u, App.escapeHtml (JStr u) = inr (App.escapeText u)).
  { intros [|c u]; reflexivity. }
  rewrite !H. intros [= Heq]. by apply escapeText_inj.
Qed.

Lemma escapeHtml_injective_witness : js "a<b" = js "a<b".
Proof.
  apply (escapeHtml_injective (js "a<b") (js "a<b")). reflexivity.
Defined.

(** X6. Escaping is not idempotent: escaping an escaped text gives it
    back only when the original held none of the five characters (and
    then escaping changed nothing in the first place). *)
Theorem escapeHtml_twice (s html : jsstring) :
  App.escapeHtml (JStr s) = inr html →
  (App.escapeHtml (JStr html) = inr html ↔
   (38%N ∉ s) ∧ (60%N ∉ s) ∧ (62%N ∉ s) ∧ (34%N ∉ s) ∧ (39%N ∉ s))
  ∧ ((38%N ∉ s) ∧ (60%N ∉ s) ∧ (62%N ∉ s) ∧ (34%N ∉ s) ∧ (39%N ∉ s)
     → html = s).
Proof.
  assert (H : ∀ u, App.escapeHtml (JStr u) = inr (App.escapeText u)).
  { intros [|c u]; reflexivity. }
  rewrite !H. intros [= <-]. split.
  - split.
    + intros [= Heq]. apply escapeText_inj in Heq.
      by apply escapeText_plain.
    + intros Hs. apply escapeText_plain in Hs. by rewrite !Hs.
  - apply escapeText_plain.
Qed.

Lemma escapeHtml_twice_witness :
  App.escapeHtml (JStr (js "&amp;")) ≠ inr (js "&amp;")
  ∧ App.escapeHtml (JStr (js "salt")) = inr (js "salt").
Proof.
  split.
  - intros Hfix.
    apply (proj1 (escapeHtml_twice (js "&") (js "&amp;") eq_refl)) in Hfix.
    destruct Hfix as [Hamp _]. apply Hamp. by constructor.
  - apply (proj1 (escapeHtml_twice (js "salt") (js "salt") eq_refl)).
    vm_compute. repeat split; intros Hc;
      repeat (apply elem_of_cons in Hc as [Hc|Hc]; [done|]);
      by apply elem_of_nil in Hc.
Defined.

(* ================================================================== *)
(** ** The browser script: ingredient lines *)
(* ================================================================== *)

Lemma parseIngredients_string (s : jsstring) :
  App.parseIngredients (JStr s)
  = inr (List.filter (λ line, (0 <? len line)%Z) (List.map trim (split 10 s))).
Proof. by destruct s. Qed.

Lemma parsed_line (s e : jsstring) :
  e ∈ List.filter (λ line, (0 <? len line)%Z) (List.map trim (split 10 s)) →
  e ≠ [] ∧ trim e = e ∧ 10%N ∉ e.
Proof.
  rewrite list_elem_of_In, filter_In, in_map_iff.
  intros [(line & <- & Hline) Hlen]. split; [|split].
  - intros Hnil. by rewrite Hnil in Hlen.
  - apply trim_trim.
  - intros Hc. apply list_elem_of_In in Hline.
    apply (split_no_sep _ _ _ Hline).
    eapply elem_of_sublist; [exact Hc|apply trim_sublist].
Qed.

(** X7. A falsy text has no ingredients; every ingredient that
    [parseIngredients] returns is a non-empty line without white space
    at either end and without a line feed (the character the text is
    split at; a carriage return inside a line stays). *)
Theorem parseIngredients_lines (text : JsValue) :
  (truthy text = false → App.parseIngredients text = inr [])
  ∧ (∀ lines,
       App.parseIngredients text = inr lines →
       Forall (λ e, e ≠ [] ∧ trim e = e ∧ 10%N ∉ e) lines).
Proof.
  unfold App.parseIngredients. split; [by intros ->|].
  intros lines. destruct (truthy text); simpl.
  - destruct text; try done. intros [= <-].
    apply Forall_forall. intros e. apply parsed_line.
  - by intros [= <-].
Qed.

Lemma parseIngredients_lines_witness :
  App.parseIngredients (JStr []) = inr []
  ∧ App.parseIngredients
      (JStr (js "  2 cups flour " ++ [10%N; 10%N] ++ js "sugar" ++ [13%N]
             ++ js "salt" ++ [10%N]))
    = inr [js "2 cups flour"; js "sugar" ++ [13%N] ++ js "salt"]
  ∧ Forall (λ e, e ≠ [] ∧ trim e = e ∧ 10%N ∉ e)
      [js "2 cups flour"; js "sugar" ++ [13%N] ++ js "salt"].
Proof.
  split; [|split].
  - apply (proj1 (parseIngredients_lines (JStr []))). reflexivity.
  - reflexivity.
  - apply (proj2 (parseIngredients_lines
                    (JStr (js "  2 cups flour " ++ [10%N; 10%N] ++ js "sugar"
                           ++ [13%N] ++ js "salt" ++ [10%N])))).
    reflexivity.
Defined.

(** X8. Joining the parsed ingredients with line breaks and parsing
    again gives the same list. *)
Theorem parseIngredients_join (text : JsValue) (lines : list jsstring) :
  App.parseIngredients text = inr lines →
  App.parseIngredients (JStr (join [10%N] lines)) = inr lines.
Proof.
  intros Hparse.
  assert (Hlines : Forall (λ e, e ≠ [] ∧ trim e = e ∧ 10%N ∉ e) lines).
  { unfold App.parseIngredients in Hparse.
    destruct (truthy text); simpl in Hparse;
      [|injection Hparse as <-; by constructor].
    destruct text; try done. injection Hparse as <-.
    apply Forall_forall. intros e. apply parsed_line. }
  clear Hparse. destruct lines as [|e lines]; [done|].
  rewrite parseIngredients_string, split_join; [|done|].
  - f_equal. induction Hlines as [|x l (Hx & Ht & _) _ IH]; [done|].
    cbn [List.map List.filter]. rewrite Ht, IH.
    destruct x as [|c x]; [congruence|]. reflexivity.
  - eapply Forall_impl; [exact Hlines|]. by intros x (_ & _ & ?).
Qed.

Lemma parseIngredients_join_witness :
  App.parseIngredients (JStr (join [10%N] [js "2 cups flour"; js "sugar"]))
  = inr [js "2 cups flour"; js "sugar"].
Proof.
  apply (parseIngredients_join
           (JStr (js "  2 cups flour " ++ [10%N; 10%N] ++ js "sugar" ++ [10%N]))).
  reflexivity.
Defined.

(* ================================================================== *)
(** ** The browser script: excerpt and form validation *)
(* ================================================================== *)

(** X9. The excerpt of a recipe card is never empty, and is at most 123
    characters long when the recipe has instructions. *)
Theorem excerptOf_bounds (recipe : JsValue) (excerpt : jsstring) :
  App.excerptOf recipe = inr excerpt →
  excerpt ≠ []
  ∧ (truthy (field recipe "instructions") = true → (len excerpt ≤ 123)%Z).
Proof.
  unfold App.excerptOf.
  destruct (getProp recipe (js "instructions")) as [e|instructions] eqn:Hi;
    [done|].
  rewrite (getProp_field _ _ _ "ingredients" Hi).
  unfold field. rewrite Hi. cbn [mbind exn_bind mret exn_ret].
  destruct (truthy instructions).
  - destruct instructions as [| | | |s| |]; try done. intros [= <-]. split.
    + by intros [_ ?]%app_eq_nil.
    + intros _. unfold len, substring0. rewrite length_app, length_take.
      change (length (js "...")) with 3. lia.
  - destruct (truthy _).
    + destruct (App.parseIngredients _) as [e|lines]; [done|].
      cbn [mbind exn_bind mret exn_ret]. intros [= <-].
      split; [|done]. by intros [_ ?]%app_eq_nil.
    + by intros [= <-].
Qed.

Lemma excerptOf_bounds_witness :
  App.excerptOf Sample.soupJson = inr (js "Boil....")
  ∧ js "Boil...." ≠ []
  ∧ (len (js "Boil....") ≤ 123)%Z.
Proof.
  split; [reflexivity|].
  destruct (excerptOf_bounds Sample.soupJson (js "Boil....") eq_refl)
    as [Hne Hlen].
  split; [exact Hne|]. apply Hlen. reflexivity.
Defined.

Lemma truthy_cons c (s : jsstring) : truthy (JStr (c :: s)) = true.
Proof. reflexivity. Qed.

Lemma validateRecipeForm_rules (form : App.RecipeForm) :
  App.validateRecipeForm form = None ↔
  (3 ≤ len (trim (App.name form)))%Z
  ∧ App.category form ≠ []
  ∧ trim (App.ingredients form) ≠ []
  ∧ (20 ≤ len (trim (App.instructions form)))%Z.
Proof.
  unfold App.validateRecipeForm.
  destruct (trim (App.name form)) as [|a n].
  { split; [done|]. intros (Hn & _). change (len []) with 0%Z in Hn. lia. }
  rewrite truthy_cons. cbn [negb].
  destruct (Z.ltb_spec (len (a :: n)) 3) as [Hn|Hn].
  { split; [done|]. intros (? & _). lia. }
  destruct (App.category form) as [|b c].
  { split; [done|]. by intros (_ & ? & _). }
  rewrite truthy_cons. cbn [negb].
  destruct (trim (App.ingredients form)) as [|d i].
  { split; [done|]. by intros (_ & _ & ? & _). }
  rewrite truthy_cons. cbn [negb].
  destruct (trim (App.instructions form)) as [|e t].
  { split; [done|]. intros (_ & _ & _ & Hs). change (len []) with 0%Z in Hs. lia. }
  rewrite truthy_cons. cbn [negb].
  destruct (Z.ltb_spec (len (e :: t)) 20) as [Hs|Hs].
  { split; [done|]. intros (_ & _ & _ & ?). lia. }
  done.
Qed.

Lemma truthy_string_len (s : jsstring) : (1 ≤ len s)%Z → truthy (JStr s) = true.
Proof.
  destruct s; [|done]. intros H. change (len []) with 0%Z in H. lia.
Qed.

(** X11. [validateRecipeForm] accepts a form exactly when the trimmed
    name has at least 3 characters, a category is selected, the trimmed
    ingredients are not empty and the trimmed instructions have at
    least 20 characters. *)
Theorem validateRecipeForm_accepts_iff (form : App.RecipeForm) :
  App.validateRecipeForm form = None ↔
  (3 ≤ len (trim (App.name form)))%Z
  ∧ App.category form ≠ []
  ∧ trim (App.ingredients form) ≠ []
  ∧ (20 ≤ len (trim (App.instructions form)))%Z.
Proof.
  split; [apply validateRecipeForm_rules|].
  intros (Hn & Hc & Hi & Hs). unfold App.validateRecipeForm.
  rewrite (truthy_string_len (trim (App.name form))) by lia.
  rewrite (truthy_string_len (trim (App.instructions form))) by lia.
  destruct (App.category form) as [|c cs]; [done|].
  destruct (trim (App.ingredients form)) as [|i rest]; [done|].
  rewrite !truthy_cons. cbn [negb].
  destruct (Z.ltb_spec (len (trim (App.name form))) 3); [lia|].
  destruct (Z.ltb_spec (len (trim (App.instructions form))) 20); [lia|].
  done.
Qed.

Lemma validateRecipeForm_accepts_iff_witness :
  App.validateRecipeForm Sample.pieForm = None.
Proof.
  apply (proj2 (validateRecipeForm_accepts_iff Sample.pieForm)).
  vm_compute. repeat split; discriminate.
Defined.

(** X12. A form that passes [validateRecipeForm] is sent as a POST that
    the recipes handler accepts with 201 when the drawn id is free; the
    stored name, ingredients and instructions are the sanitized form
    texts. *)
Theorem validated_form_is_accepted (form : App.RecipeForm)
  (isoNow : jsstring) (req : Request) (env : Env) (st : db) :
  App.handleRecipeSubmit form isoNow = inr req →
  recipes st !! autoId env = None →
  ∃ d,
    Recipes.handler env req st
    = (inr {| status := 201;
              headers := foldl setHeader ∅ Recipes.corsHeaders;
              json := [ (js "success", Bool true);
                        (js "message", Str (js "Recipe created successfully"));
                        (js "recipe", RecipeJson (autoId env) (Some d)) ] |},
       {| recipes := <[autoId env := d]> (recipes st);
          comments := comments st |})
    ∧ Recipes.sanitizeString (JStr (App.name form)) = inr (Recipe.name d)
    ∧ Recipes.sanitizeString (JStr (App.ingredients form))
      = inr (Recipe.ingredients d)
    ∧ Recipes.sanitizeString (JStr (App.instructions form))
      = inr (Recipe.instructions d).
Proof.
  unfold App.handleRecipeSubmit.
  destruct (App.validateRecipeForm form) eqn:Hvalid; [done|].
  apply validateRecipeForm_rules in Hvalid as (Hn & _ & Hi & Hs).
  intros [= <-] Hfree.
  eexists. split.
  - eapply (createRecipe_run env _ st (JStr (trim (App.name form))));
      try reflexivity; try apply recipes_sanitize_string; try done.
    + apply truthy_string_len.
      change (field _ "name") with (JStr (trim (App.name form))). lia.
    + change (field _ "ingredients") with (JStr (trim (App.ingredients form))).
      by destruct (trim (App.ingredients form)).
    + apply truthy_string_len.
      change (field _ "instructions") with (JStr (trim (App.instructions form))).
      lia.
  - rewrite !recipes_sanitize_string. cbn [recipeOf Recipe.name
      Recipe.ingredients Recipe.instructions].
    by rewrite !clean_of_trim.
Qed.

Lemma validated_form_is_accepted_witness :
  match App.handleRecipeSubmit Sample.pieForm (js "2024-01-01T00:00:00.000Z") with
  | inr req =>
      ∃ d,
        Recipes.handler Sample.env req Sample.empty
        = (inr {| status := 201;
                  headers := foldl setHeader ∅ Recipes.corsHeaders;
                  json := [ (js "success", Bool true);
                            (js "message", Str (js "Recipe created successfully"));
                            (js "recipe", RecipeJson (js "d1") (Some d)) ] |},
           {| recipes := <[js "d1" := d]> (recipes Sample.empty);
              comments := comments Sample.empty |})
        ∧ Recipes.sanitizeString (JStr (App.name Sample.pieForm))
          = inr (Recipe.name d)
        ∧ Recipes.sanitizeString (JStr (App.ingredients Sample.pieForm))
          = inr (Recipe.ingredients d)
        ∧ Recipes.sanitizeString (JStr (App.instructions Sample.pieForm))
          = inr (Recipe.instructions d)
  | inl _ => False
  end.
Proof.
  apply (validated_form_is_accepted Sample.pieForm
           (js "2024-01-01T00:00:00.000Z") _ Sample.env Sample.empty);
    reflexivity.
Defined.

(* ================================================================== *)
(** ** The recipes handler: lookup by id *)
(* ================================================================== *)

(** The branch functions of the recipes handler, by route. *)
Lemma recipes_handler_route env req r st :
  method req ≠ js "OPTIONS" →
  Recipes.route req = inr r →
  Recipes.handler env req st
  = match r with
    | Recipes.RecentRecipes limit =>
        Recipes.getRecentRecipes (foldl setHeader ∅ Recipes.corsHeaders) limit st
    | Recipes.RecipeById id =>
        Recipes.getRecipeById (foldl setHeader ∅ Recipes.corsHeaders) id st
    | Recipes.AllRecipes =>
        Recipes.getAllRecipes (foldl setHeader ∅ Recipes.corsHeaders) st
    | Recipes.CreateRecipe =>
        Recipes.createRecipe env req (foldl setHeader ∅ Recipes.corsHeaders) st
    | Recipes.DeleteRecipe id =>
        Recipes.deleteRecipe (foldl setHeader ∅ Recipes.corsHeaders) id st
    | Recipes.NotAllowed =>
        (inr {| status := 405;
                headers := foldl setHeader ∅ Recipes.corsHeaders;
                json := [ (js "error", Str (js "Method not allowed"));
                          (js "allowedMethods",
                           Strs [js "GET"; js "POST"; js "DELETE"]) ] |}, st)
    end.
Proof.
  intros Hm Hr. unfold Recipes.handler, eqb.
  rewrite bool_decide_eq_false_2 by done. rewrite Hr.
  set (res := foldl setHeader ∅ Recipes.corsHeaders).
  unfold try at 1, mbind at 1, M_bind at 1, lift, mret, M_ret.
  destruct r.
  - by destruct (getRecentRecipes_sends res limit st) as (? & ? & -> & ?).
  - by destruct (getRecipeById_sends res recipeId st) as (? & ? & -> & ?).
  - by destruct (getAllRecipes_sends res st) as (? & ? & -> & ?).
  - by destruct (createRecipe_sends env req res st) as (? & ? & -> & ?).
  - by destruct (deleteRecipe_sends res recipeId st) as (? & ? & -> & ?).
  - done.
Qed.

Lemma route_get_by_id req recent id :
  method req = js "GET" →
  getProp (query req) (js "recent") = inr recent →
  truthy recent = false →
  Recipes.recipeIdOf (url req) = Some id →
  Recipes.route req = inr (Recipes.RecipeById id).
Proof.
  intros Hm Hq Hrecent Hid. unfold Recipes.route. rewrite Hm, Hid.
  change (eqb (js "GET") (js "GET")) with true.
  cbv iota. rewrite Hq. cbn [mbind exn_bind mret exn_ret]. by rewrite Hrecent.
Qed.

Lemma route_delete req id :
  method req = js "DELETE" →
  Recipes.recipeIdOf (url req) = Some id →
  Recipes.route req = inr (Recipes.DeleteRecipe id).
Proof.
  intros Hm Hid. unfold Recipes.route. by rewrite Hm, Hid.
Qed.

(** The id that the handler reads from the path has no slash. *)
Lemma recipeIdOf_plain url id :
  Recipes.recipeIdOf url = Some id → id ≠ [] ∧ (47%N ∉ id).
Proof.
  intros (Hlast & Hne & _)%recipeIdOf_Some. split; [done|].
  unfold Recipes.lastPartOf in Hlast.
  destruct (last (split 47 (default [] (head (split 63 url))))) as [part|] eqn:Hpart;
    simpl in Hlast; [|congruence].
  subst part. apply last_Some_elem_of in Hpart. by eapply split_no_sep.
Qed.

Lemma getRecipeById_run res id st :
  id ≠ [] → (47%N ∉ id) →
  Recipes.getRecipeById res id st
  = (inr match recipes st !! id with
         | Some d =>
             {| status := 200; headers := res;
                json := [ (js "success", Bool true);
                          (js "recipe", RecipeJson id (Some d)) ] |}
         | None =>
             {| status := 404; headers := res;
                json := [ (js "error", Str (js "Recipe not found"));
                          (js "recipeId", Str id) ] |}
         end, st).
Proof.
  intros Hid Hslash.
  unfold Recipes.getRecipeById, getRecipe. run_store. cbn [doc].
  rewrite (documentPath_plain id Hid Hslash).
  run_store. cbv beta iota. cbn [recipeAt].
  by destruct (recipes st !! id).
Qed.

(** X15. A GET for a recipe id (no [recent] parameter) is answered with
    200 and the stored document when the id exists and with 404 'Recipe
    not found' when it does not; the store is not changed. *)
Theorem get_recipe_by_id env req st recent id :
  method req = js "GET" →
  getProp (query req) (js "recent") = inr recent →
  truthy recent = false →
  Recipes.recipeIdOf (url req) = Some id →
  Recipes.handler env req st
  = (inr match recipes st !! id with
         | Some d =>
             {| status := 200;
                headers := foldl setHeader ∅ Recipes.corsHeaders;
                json := [ (js "success", Bool true);
                          (js "recipe", RecipeJson id (Some d)) ] |}
         | None =>
             {| status := 404;
                headers := foldl setHeader ∅ Recipes.corsHeaders;
                json := [ (js "error", Str (js "Recipe not found"));
                          (js "recipeId", Str id) ] |}
         end, st).
Proof.
  intros Hm Hq Hrecent Hid.
  rewrite (recipes_handler_route env req (Recipes.RecipeById id)).
  - apply recipeIdOf_plain in Hid as [? ?]. by apply getRecipeById_run.
  - by rewrite Hm.
  - by eapply route_get_by_id.
Qed.

Lemma get_recipe_by_id_witness :
  Recipes.handler Sample.env (Sample.get "/api/recipes/r9" (JObj []))
    Sample.onePie
  = (inr {| status := 404;
            headers := foldl setHeader ∅ Recipes.corsHeaders;
            json := [ (js "error", Str (js "Recipe not found"));
                      (js "recipeId", Str (js "r9")) ] |}, Sample.onePie).
Proof.
  apply (get_recipe_by_id Sample.env
           (Sample.get "/api/recipes/r9" (JObj [])) Sample.onePie
           JUndefined (js "r9")); reflexivity.
Defined.

Lemma idChars_plain (id : jsstring) :
  Forall (λ c, isIdChar c = true) id → (47%N ∉ id) ∧ (63%N ∉ id).
Proof.
  intros Hid. split; intros Hc; by eapply Forall_forall in Hid; [|exact Hc].
Qed.

(** X14. For an id made of letters, digits, '-' and '_', which the URL
    parser leaves as it is, the URL that the client asks for is read
    back by the handler as that id exactly when the id is not empty and
    is not the word 'recipes'. *)
Theorem recipeUrl_is_read_back (id : jsstring) :
  Forall (λ c, isIdChar c = true) id →
  Recipes.lastPartOf (App.recipeUrl id) = id
  ∧ (Recipes.recipeIdOf (App.recipeUrl id) = Some id ↔
     id ≠ [] ∧ id ≠ js "recipes").
Proof.
  intros [Hslash Hquery]%idChars_plain.
  assert (Hlast : Recipes.lastPartOf (App.recipeUrl id) = id).
  { unfold Recipes.lastPartOf, App.recipeUrl.
    rewrite (split_without_sep 63).
    - change (default [] (head [js "/api" ++ js "/recipes/" ++ id]))
        with (js "/api/recipes" ++ 47%N :: id).
      by rewrite split_last, split_without_sep.
    - rewrite !not_elem_of_app. split; [|split; [|done]];
        vm_compute; intros Hc;
        repeat (apply elem_of_cons in Hc as [Hc|Hc]; [done|]);
        by apply elem_of_nil in Hc. }
  split; [done|]. rewrite recipeIdOf_Some. tauto.
Qed.

Lemma recipeUrl_is_read_back_witness :
  Recipes.lastPartOf (App.recipeUrl (js "d1")) = js "d1"
  ∧ (Recipes.recipeIdOf (App.recipeUrl (js "d1")) = Some (js "d1") ↔
     js "d1" ≠ [] ∧ js "d1" ≠ js "recipes").
Proof.
  apply (recipeUrl_is_read_back (js "d1")). by repeat constructor.
Defined.

(* ================================================================== *)
(** ** The recipes handler: create, fetch, delete; reads *)
(* ================================================================== *)

(** X16. A recipe that the handler created is returned, as stored, by a
    later GET for the id it was given.  The POST is accepted when its
    required fields are present, none of its fields makes the sanitizer
    throw and the drawn id is free. *)
Theorem created_recipe_is_fetched env env' (post get : Request) st x recent :
  method post = js "POST" →
  getProp (body post) (js "name") = inr x →
  truthy (field (body post) "name") = true →
  truthy (field (body post) "ingredients") = true →
  truthy (field (body post) "instructions") = true →
  sanitizable (body post) →
  recipes st !! autoId env = None →
  method get = js "GET" →
  getProp (query get) (js "recent") = inr recent →
  truthy recent = false →
  Recipes.recipeIdOf (url get) = Some (autoId env) →
  ∃ d st',
    Recipes.handler env post st
    = (inr {| status := 201;
              headers := foldl setHeader ∅ Recipes.corsHeaders;
              json := [ (js "success", Bool true);
                        (js "message", Str (js "Recipe created successfully"));
                        (js "recipe", RecipeJson (autoId env) (Some d)) ] |}, st')
    ∧ Recipes.handler env' get st'
      = (inr {| status := 200;
                headers := foldl setHeader ∅ Recipes.corsHeaders;
                json := [ (js "success", Bool true);
                          (js "recipe", RecipeJson (autoId env) (Some d)) ] |}, st').
Proof.
  intros Hm Hx Tn Ti Ts Hsan Hfree Hg Hq Hrecent Hid.
  destruct (createRecipe_stores_sanitized env post st x Hm Hx Tn Ti Ts Hsan Hfree)
    as (d & Hpost & _).
  eexists d, _. split; [exact Hpost|].
  rewrite (recipes_handler_route env' get (Recipes.RecipeById (autoId env))).
  - apply recipeIdOf_plain in Hid as [? ?]. rewrite getRecipeById_run by done.
    cbn [recipes]. by rewrite lookup_insert_eq.
  - by rewrite Hg.
  - by eapply route_get_by_id.
Qed.

Lemma created_recipe_is_fetched_witness :
  ∃ d st',
    Recipes.handler Sample.env
      (Sample.post "/api/recipes"
         (JObj [ (js "name", JStr (js "Grandma's Pie"));
                 (js "ingredients", JStr (js "flour"));
                 (js "instructions", JStr (js "Mix and bake.")) ]))
      Sample.empty
    = (inr {| status := 201;
              headers := foldl setHeader ∅ Recipes.corsHeaders;
              json := [ (js "success", Bool true);
                        (js "message", Str (js "Recipe created successfully"));
                        (js "recipe", RecipeJson (js "d1") (Some d)) ] |}, st')
    ∧ Recipes.handler Sample.env (Sample.get "/api/recipes/d1" (JObj [])) st'
      = (inr {| status := 200;
                headers := foldl setHeader ∅ Recipes.corsHeaders;
                json := [ (js "success", Bool true);
                          (js "recipe", RecipeJson (js "d1") (Some d)) ] |}, st').
Proof.
  refine (created_recipe_is_fetched Sample.env Sample.env
            (Sample.post "/api/recipes" _) (Sample.get "/api/recipes/d1" (JObj []))
            Sample.empty (JStr (js "Grandma's Pie")) JUndefined
            _ _ _ _ _ _ _ _ _ _ _);
    try reflexivity.
  repeat constructor; by eexists.
Defined.

Lemma deleteRecipe_run res id st :
  id ≠ [] → (47%N ∉ id) →
  Recipes.deleteRecipe res id st
  = match recipes st !! id with
    | Some _ =>
        (inr {| status := 200; headers := res;
                json := [ (js "success", Bool true);
                          (js "message", Str (js "Recipe deleted successfully"));
                          (js "recipeId", Str id) ] |},
         {| recipes := delete id (recipes st); comments := comments st |})
    | None =>
        (inr {| status := 404; headers := res;
                json := [ (js "error", Str (js "Recipe not found"));
                          (js "recipeId", Str id) ] |}, st)
    end.
Proof.
  intros Hid Hslash.
  unfold Recipes.deleteRecipe, getRecipe, deleteRecipe. run_store. cbn [doc].
  rewrite (documentPath_plain id Hid Hslash).
  run_store. cbv beta iota. cbn [recipeAt].
  by destruct (recipes st !! id).
Qed.

(** X17. DELETE of an existing recipe removes that recipe only: every
    other recipe and every comment, those of the deleted recipe
    included, stay; DELETE of an unknown id is answered with 404 and
    changes nothing. *)
Theorem delete_recipe env req st id :
  method req = js "DELETE" →
  Recipes.recipeIdOf (url req) = Some id →
  ∃ resp st',
    Recipes.handler env req st = (inr resp, st')
    ∧ comments st' = comments st
    ∧ (∀ other, other ≠ id → recipes st' !! other = recipes st !! other)
    ∧ (is_Some (recipes st !! id) →
       status resp = 200%Z ∧ recipes st' !! id = None)
    ∧ (recipes st !! id = None → status resp = 404%Z ∧ st' = st).
Proof.
  intros Hm Hid.
  rewrite (recipes_handler_route env req (Recipes.DeleteRecipe id));
    [|by rewrite Hm|by apply route_delete].
  apply recipeIdOf_plain in Hid as [? ?]. rewrite deleteRecipe_run by done.
  destruct (recipes st !! id) as [d|] eqn:Hd.
  - eexists _, _. split; [done|]. cbn [recipes comments status].
    split; [done|]. split; [|split].
    + intros other Hother. by apply lookup_delete_ne.
    + intros _. split; [done|]. apply lookup_delete_eq.
    + done.
  - eexists _, _. split; [done|]. repeat split; done.
Qed.

Lemma delete_recipe_witness :
  ∃ resp st',
    Recipes.handler Sample.env
      {| method := js "DELETE"; url := js "/api/recipes/r1";
         query := JObj []; body := JUndefined |} Sample.pieAndSoup
    = (inr resp, st')
    ∧ comments st' = comments Sample.pieAndSoup
    ∧ (∀ other, other ≠ js "r1" →
                recipes st' !! other = recipes Sample.pieAndSoup !! other)
    ∧ (is_Some (recipes Sample.pieAndSoup !! js "r1") →
       status resp = 200%Z ∧ recipes st' !! js "r1" = None)
    ∧ (recipes Sample.pieAndSoup !! js "r1" = None →
       status resp = 404%Z ∧ st' = Sample.pieAndSoup).
Proof.
  apply (delete_recipe Sample.env _ Sample.pieAndSoup (js "r1")); reflexivity.
Defined.

Ltac reads_auto :=
  intros st; run_store;
  repeat (simplify_eq /=; try case_match); done.

Lemma getAllRecipes_reads res st : (Recipes.getAllRecipes res st).2 = st.
Proof.
  revert st. unfold Recipes.getAllRecipes, recipesByCreatedAtDesc. reads_auto.
Qed.

Lemma getRecentRecipes_reads res limit st :
  (Recipes.getRecentRecipes res limit st).2 = st.
Proof.
  revert st.
  unfold Recipes.getRecentRecipes, recentRecipes, recipesByCreatedAtDesc.
  reads_auto.
Qed.

Lemma getRecipeById_reads res id st : (Recipes.getRecipeById res id st).2 = st.
Proof.
  revert st. unfold Recipes.getRecipeById, doc, getRecipe. reads_auto.
Qed.

Lemma getComments_reads res v st : (Comments.getComments res v st).2 = st.
Proof.
  revert st. unfold Comments.getComments, commentsOfRecipe. reads_auto.
Qed.

Lemma route_writes req r :
  Recipes.route req = inr r →
  (r = Recipes.CreateRecipe → method req = js "POST")
  ∧ (∀ id, r = Recipes.DeleteRecipe id → method req = js "DELETE").
Proof.
  unfold Recipes.route.
  destruct (eqb (method req) (js "GET")) eqn:Hg.
  - destruct (getProp (query req) (js "recent")) as [e|recent];
      cbn [mbind exn_bind mret exn_ret]; [done|].
    destruct (truthy recent); cbn [andb].
    + destruct (parseInt recent); cbn [mbind exn_bind mret exn_ret]; [done|].
      intros [= <-]. by split.
    + intros [= <-]. split; [|intros id]; repeat case_match; done.
  - cbn [mbind exn_bind mret exn_ret andb].
    destruct (eqb (method req) (js "POST")) eqn:Hp.
    { apply bool_decide_eq_true in Hp. intros [= <-]. by split. }
    destruct (eqb (method req) (js "DELETE")) eqn:Hd.
    { apply bool_decide_eq_true in Hd. intros [= <-]. split; [|done].
      by destruct (Recipes.recipeIdOf (url req)). }
    intros [= <-]. by split.
Qed.

(** X20. Only POST and DELETE can change the store through the recipes
    handler, and only POST through the comments handler: every other
    request leaves the store exactly as it was. *)
Theorem reads_never_write env req st :
  (method req ≠ js "POST" → method req ≠ js "DELETE" →
   (Recipes.handler env req st).2 = st)
  ∧ (method req ≠ js "POST" → (Comments.handler env req st).2 = st).
Proof.
  split.
  - intros Hp Hd.
    destruct (decide (method req = js "OPTIONS")) as [Ho|Ho].
    { unfold Recipes.handler. by rewrite Ho. }
    destruct (Recipes.route req) as [e|r] eqn:Hr.
    { unfold Recipes.handler, eqb. rewrite bool_decide_eq_false_2 by done.
      rewrite Hr. done. }
    rewrite (recipes_handler_route env req r st Ho Hr).
    destruct (route_writes req r Hr) as [Hc Hdel].
    destruct r.
    + apply getRecentRecipes_reads.
    + apply getRecipeById_reads.
    + apply getAllRecipes_reads.
    + by specialize (Hc eq_refl).
    + by specialize (Hdel _ eq_refl).
    + done.
  - intros Hp. unfold Comments.handler.
    destruct (eqb (method req) (js "OPTIONS")); [done|].
    destruct (eqb (method req) (js "GET")).
    + unfold try at 1, mbind at 1, M_bind at 1.
      destruct (getProp (query req) (js "recipeId")) as [e|v]; [done|].
      unfold lift, mret, M_ret.
      pose proof (getComments_reads (foldl setHeader ∅ Comments.corsHeaders) v st)
        as Hreads.
      destruct (getComments_sends (foldl setHeader ∅ Comments.corsHeaders) v st)
        as (? & ? & Hrun & _).
      rewrite Hrun in *. done.
    + unfold eqb. rewrite bool_decide_eq_false_2 by done. done.
Qed.

Lemma reads_never_write_witness :
  (Recipes.handler Sample.env (Sample.get "/api/recipes/r1" (JObj []))
     Sample.pieAndSoup).2 = Sample.pieAndSoup
  ∧ (Comments.handler Sample.env
       (Sample.get "/api/comments" (JObj [ (js "recipeId", JStr (js "r1")) ]))
       Sample.pieAndSoup).2 = Sample.pieAndSoup.
Proof.
  split.
  - apply (proj1 (reads_never_write Sample.env _ Sample.pieAndSoup)); done.
  - apply (proj2 (reads_never_write Sample.env _ Sample.pieAndSoup)); done.
Defined.

(* ================================================================== *)
(** ** Methods that are not allowed; recent recipes *)
(* ================================================================== *)

(** X19. The recipes handler answers 405 for every method other than
    OPTIONS, GET, POST and DELETE, PUT included although the
    cross-origin headers allow it, and for a DELETE without a recipe
    id; the comments handler answers 405 for every method other than
    OPTIONS, GET and POST.  The store is not changed. *)
Theorem method_not_allowed env req st :
  ((method req ≠ js "OPTIONS" ∧ method req ≠ js "GET"
    ∧ method req ≠ js "POST" ∧ method req ≠ js "DELETE")
   ∨ (method req = js "DELETE" ∧ Recipes.recipeIdOf (url req) = None) →
   Recipes.handler env req st
   = (inr {| status := 405;
             headers := foldl setHeader ∅ Recipes.corsHeaders;
             json := [ (js "error", Str (js "Method not allowed"));
                       (js "allowedMethods",
                        Strs [js "GET"; js "POST"; js "DELETE"]) ] |}, st))
  ∧ (method req ≠ js "OPTIONS" → method req ≠ js "GET" →
     method req ≠ js "POST" →
     Comments.handler env req st
     = (inr {| status := 405;
               headers := foldl setHeader ∅ Comments.corsHeaders;
               json := [ (js "error", Str (js "Method not allowed"));
                         (js "allowedMethods", Strs [js "GET"; js "POST"]) ] |},
        st)).
Proof.
  split.
  - intros Hcase.
    rewrite (recipes_handler_route env req Recipes.NotAllowed); [done| |].
    + destruct Hcase as [(? & _)|[-> _]]; done.
    + unfold Recipes.route, eqb.
      destruct Hcase as [(Ho & Hg & Hp & Hd)|[Hd Hid]].
      * by rewrite !bool_decide_eq_false_2 by done.
      * by rewrite Hd, Hid.
  - intros Ho Hg Hp. unfold Comments.handler, eqb.
    by rewrite !bool_decide_eq_false_2 by done.
Qed.

Lemma method_not_allowed_witness :
  foldl setHeader ∅ Recipes.corsHeaders !! js "Access-Control-Allow-Methods"
  = Some (js "GET, POST, PUT, DELETE, OPTIONS")
  ∧ Recipes.handler Sample.env
      {| method := js "PUT"; url := js "/api/recipes/r1";
         query := JObj []; body := JObj [] |} Sample.onePie
    = (inr {| status := 405;
              headers := foldl setHeader ∅ Recipes.corsHeaders;
              json := [ (js "error", Str (js "Method not allowed"));
                        (js "allowedMethods",
                         Strs [js "GET"; js "POST"; js "DELETE"]) ] |},
       Sample.onePie)
  ∧ Recipes.handler Sample.env
      {| method := js "DELETE"; url := js "/api/recipes";
         query := JObj []; body := JObj [] |} Sample.onePie
    = (inr {| status := 405;
              headers := foldl setHeader ∅ Recipes.corsHeaders;
              json := [ (js "error", Str (js "Method not allowed"));
                        (js "allowedMethods",
                         Strs [js "GET"; js "POST"; js "DELETE"]) ] |},
       Sample.onePie).
Proof.
  split; [vm_compute; reflexivity|]. split.
  - apply (proj1 (method_not_allowed Sample.env _ Sample.onePie)).
    left. done.
  - apply (proj1 (method_not_allowed Sample.env _ Sample.onePie)).
    right. done.
Defined.

(** X18. GET with [recent=n] returns at most [n] stored recipes, and
    each of them is at least as new as every stored recipe that is left
    out; [recent] takes precedence over a recipe id in the path. *)
Theorem recent_recipes_are_the_newest env req st recent n :
  method req = js "GET" →
  getProp (query req) (js "recent") = inr recent →
  truthy recent = true →
  parseInt recent = inr (Some n) →
  (1 ≤ n ≤ 2147483647)%Z →
  ∃ shown,
    Recipes.handler env req st
    = (inr {| status := 200;
              headers := foldl setHeader ∅ Recipes.corsHeaders;
              json := [ (js "success", Bool true);
                        (js "count", Count (length shown));
                        (js "recipes", RecipesJson shown) ] |}, st)
    ∧ (Z.of_nat (length shown) ≤ n)%Z
    ∧ (∀ a, a ∈ shown → recipes st !! a.1 = Some a.2)
    ∧ (∀ a b, a ∈ shown → recipes st !! b.1 = Some b.2 → b ∉ shown →
              (Recipe.createdAt b.2 ≤ Recipe.createdAt a.2)%Z).
Proof.
  intros Hm Hq Hrecent Hn Hrange.
  set (all := merge_sort newerRecipe (map_to_list (recipes st))).
  assert (Hall : all ≡ₚ map_to_list (recipes st))
    by apply merge_sort_Permutation.
  assert (Hsorted : StronglySorted newerRecipe all)
    by (apply StronglySorted_merge_sort; apply _).
  exists (take (Z.to_nat n) all). split; [|split; [|split]].
  - rewrite (recipes_handler_route env req (Recipes.RecentRecipes (Some n))).
    + unfold Recipes.getRecentRecipes, recentRecipes, recipesByCreatedAtDesc.
      run_store.
      destruct (Z.leb_spec 0 n); [|lia].
      destruct (Z.leb_spec n 2147483647); [|lia]. done.
    + by rewrite Hm.
    + unfold Recipes.route. rewrite Hm.
      change (eqb (js "GET") (js "GET")) with true. cbv iota.
      rewrite Hq. cbn [mbind exn_bind mret exn_ret]. by rewrite Hrecent, Hn.
  - rewrite length_take. lia.
  - intros [i d] Ha. apply elem_of_map_to_list. rewrite <- Hall.
    eapply elem_of_sublist; [exact Ha|apply sublist_take].
  - intros a [i d] Ha Hb Hout. apply elem_of_map_to_list in Hb.
    rewrite <- Hall, <- (take_drop (Z.to_nat n) all), elem_of_app in Hb.
    destruct Hb as [Hb|Hb]; [done|].
    rewrite <- (take_drop (Z.to_nat n) all) in Hsorted.
    exact (StronglySorted_app_1_elem_of _ _ _ _ _ Hsorted Ha Hb).
Qed.

Lemma recent_recipes_are_the_newest_witness :
  ∃ shown,
    Recipes.handler Sample.env
      (Sample.get "/api/recipes/r1?recent=1" (JObj [ (js "recent", JStr (js "1")) ]))
      Sample.pieAndSoup
    = (inr {| status := 200;
              headers := foldl setHeader ∅ Recipes.corsHeaders;
              json := [ (js "success", Bool true);
                        (js "count", Count (length shown));
                        (js "recipes", RecipesJson shown) ] |}, Sample.pieAndSoup)
    ∧ (Z.of_nat (length shown) ≤ 1)%Z
    ∧ (∀ a, a ∈ shown → recipes Sample.pieAndSoup !! a.1 = Some a.2)
    ∧ (∀ a b, a ∈ shown → recipes Sample.pieAndSoup !! b.1 = Some b.2 →
              b ∉ shown →
              (Recipe.createdAt b.2 ≤ Recipe.createdAt a.2)%Z).
Proof.
  apply (recent_recipes_are_the_newest Sample.env _ Sample.pieAndSoup
           (JStr (js "1")) 1); try reflexivity.
  lia.
Defined.

(* ================================================================== *)
(** ** The comments handler: listing and posting *)
(* ================================================================== *)

#[local] Instance newerComment_total : Total newerComment.
Proof. intros a b. unfold newerComment. lia. Qed.

#[local] Instance newerComment_trans : Transitive newerComment.
Proof. intros a b c. unfold newerComment. lia. Qed.

Lemma comments_handler_get env req st v :
  method req = js "GET" →
  getProp (query req) (js "recipeId") = inr v →
  Comments.handler env req st
  = Comments.getComments (foldl setHeader ∅ Comments.corsHeaders) v st.
Proof.
  intros Hm Hq. unfold Comments.handler. rewrite Hm.
  change (eqb (js "GET") (js "OPTIONS")) with false.
  change (eqb (js "GET") (js "GET")) with true.
  cbv iota. rewrite Hq.
  unfold try at 1, mbind at 1, M_bind at 1, lift, mret, M_ret.
  by destruct (getComments_sends (foldl setHeader ∅ Comments.corsHeaders) v st)
    as (? & ? & -> & ?).
Qed.

Lemma getComments_listing env req st id :
  method req = js "GET" →
  getProp (query req) (js "recipeId") = inr (JStr id) → id ≠ [] →
  ∃ shown,
    Comments.handler env req st
    = (inr {| status := 200;
              headers := foldl setHeader ∅ Comments.corsHeaders;
              json := [ (js "success", Bool true);
                        (js "count", Count (length shown));
                        (js "recipeId", Echo (JStr id));
                        (js "comments", CommentsJson shown) ] |}, st)
    ∧ (∀ c, c ∈ shown ↔
            comments st !! c.1 = Some c.2 ∧ Comment.recipeId c.2 = id)
    ∧ StronglySorted newerComment shown.
Proof.
  intros Hm Hq Hid.
  set (mine := List.filter (λ c : jsstring * Comment.doc,
                              eqb (Comment.recipeId c.2) id)
                 (map_to_list (comments st))).
  exists (merge_sort newerComment mine). split; [|split].
  - rewrite (comments_handler_get env req st _ Hm Hq).
    unfold Comments.getComments, commentsOfRecipe. run_store.
    destruct id; [done|]. reflexivity.
  - intros [i c]. rewrite merge_sort_Permutation. unfold mine.
    rewrite list_elem_of_In, filter_In, <- list_elem_of_In.
    rewrite elem_of_map_to_list. unfold eqb.
    by rewrite bool_decide_eq_true.
  - apply StronglySorted_merge_sort; apply _.
Qed.



Lemma sanitize_len_truthy v s :
  Comments.sanitizeString v = inr s → (1 ≤ len s)%Z → truthy v = true.
Proof.
  unfold Comments.sanitizeString. destruct (truthy v); [done|].
  simpl. intros [= <-]. change (len []) with 0%Z. lia.
Qed.

(** The successful path of [addComment]. *)
Lemma addComment_run env req st id key r u c :
  method req = js "POST" →
  getProp (body req) (js "recipeId") = inr (JStr id) →
  documentPath id = Some [key] →
  recipes st !! key = Some r →
  Comments.sanitizeString (field (body req) "username") = inr u →
  Comments.sanitizeString (field (body req) "comment") = inr c →
  (1 ≤ len u ≤ 100)%Z →
  (1 ≤ len c ≤ 1000)%Z →
  comments st !! autoId env = None →
  Comments.handler env req st
  = (inr {| status := 201;
            headers := foldl setHeader ∅ Comments.corsHeaders;
            json := [ (js "success", Bool true);
                      (js "message", Str (js "Comment added successfully"));
                      (js "comment",
                       CommentJson (autoId env)
                         (Some {| Comment.recipeId := clean 1000 id;
                                  Comment.username := u;
                                  Comment.comment := c;
                                  Comment.createdAt := serverTimestamp env |})) ] |},
     {| recipes := recipes st;
        comments :=
          <[autoId env :=
              {| Comment.recipeId := clean 1000 id;
                 Comment.username := u;
                 Comment.comment := c;
                 Comment.createdAt := serverTimestamp env |}]> (comments st) |}).
Proof.
  intros Hm Hid Hpath Hr Hu Hc Hulen Hclen Hfree.
  rewrite (addComment_found env req st id key r Hm Hid Hpath Hr).
  - rewrite comments_sanitize_string, Hu, Hc. run_store.
    destruct (Z.ltb_spec (len c) 1); [lia|].
    destruct (Z.ltb_spec 1000 (len c)); [lia|].
    destruct (Z.ltb_spec (len u) 1); [lia|].
    destruct (Z.ltb_spec 100 (len u)); [lia|].
    cbn [orb]. unfold addComment, getComment. cbv beta. rewrite Hfree.
    cbn [comments]. by rewrite lookup_insert_eq.
  - apply (sanitize_len_truthy _ u); [done|lia].
  - apply (sanitize_len_truthy _ c); [done|lia].
Qed.

(** X22. A comment that the handler accepted is stored under the
    sanitized recipe id, so a later GET for the recipe lists it exactly
    when sanitizing leaves the recipe id unchanged.  The POST is
    accepted when it names a stored recipe, the sanitizer returns a
    username of 1 to 100 and a comment of 1 to 1000 characters, and the
    drawn id is free. *)
Theorem posted_comment_is_listed env env' (post get : Request) st id key r u c :
  method post = js "POST" →
  getProp (body post) (js "recipeId") = inr (JStr id) →
  documentPath id = Some [key] →
  recipes st !! key = Some r →
  Comments.sanitizeString (field (body post) "username") = inr u →
  Comments.sanitizeString (field (body post) "comment") = inr c →
  (1 ≤ len u ≤ 100)%Z →
  (1 ≤ len c ≤ 1000)%Z →
  comments st !! autoId env = None →
  method get = js "GET" →
  getProp (query get) (js "recipeId") = inr (JStr id) →
  ∃ new st' shown,
    Comments.handler env post st
    = (inr {| status := 201;
              headers := foldl setHeader ∅ Comments.corsHeaders;
              json := [ (js "success", Bool true);
                        (js "message", Str (js "Comment added successfully"));
                        (js "comment", CommentJson (autoId env) (Some new)) ] |},
       st')
    ∧ Comments.handler env' get st'
      = (inr {| status := 200;
                headers := foldl setHeader ∅ Comments.corsHeaders;
                json := [ (js "success", Bool true);
                          (js "count", Count (length shown));
                          (js "recipeId", Echo (JStr id));
                          (js "comments", CommentsJson shown) ] |}, st')
    ∧ ((autoId env, new) ∈ shown ↔ Comments.sanitizeString (JStr id) = inr id).
Proof.
  intros Hm Hid Hpath Hr Hu Hc Hulen Hclen Hfree Hg Hq.
  assert (Hne : id ≠ []).
  { intros ->. by unfold documentPath in Hpath. }
  eexists _, _.
  edestruct (getComments_listing env' get) as (shown & Hget & Hshown & _);
    [exact Hg|exact Hq|exact Hne|].
  exists shown. split; [by apply (addComment_run env post st id key r u c)|].
  split; [exact Hget|].
  rewrite Hshown, comments_sanitize_string.
  cbn [fst snd comments Comment.recipeId].
  rewrite lookup_insert_eq. split; [by intros [_ ->]|by intros [= ?]].
Qed.

Lemma posted_comment_is_listed_witness :
  ∃ new st' shown,
    Comments.handler Sample.env
      (Sample.post "/api/comments"
         (JObj [ (js "recipeId", JStr (js "r1"));
                 (js "username", JStr (js "Ann"));
                 (js "comment", JStr (js "Delicious!")) ]))
      Sample.onePie
    = (inr {| status := 201;
              headers := foldl setHeader ∅ Comments.corsHeaders;
              json := [ (js "success", Bool true);
                        (js "message", Str (js "Comment added successfully"));
                        (js "comment", CommentJson (js "d1") (Some new)) ] |},
       st')
    ∧ Comments.handler Sample.env
        (Sample.get "/api/comments" (JObj [ (js "recipeId", JStr (js "r1")) ]))
        st'
      = (inr {| status := 200;
                headers := foldl setHeader ∅ Comments.corsHeaders;
                json := [ (js "success", Bool true);
                          (js "count", Count (length shown));
                          (js "recipeId", Echo (JStr (js "r1")));
                          (js "comments", CommentsJson shown) ] |}, st')
    ∧ ((js "d1", new) ∈ shown
       ↔ Comments.sanitizeString (JStr (js "r1")) = inr (js "r1")).
Proof.
  apply (posted_comment_is_listed Sample.env Sample.env
           (Sample.post "/api/comments" _)
           (Sample.get "/api/comments" (JObj [ (js "recipeId", JStr (js "r1")) ]))
           Sample.onePie (js "r1") (js "r1") Sample.pie (js "Ann") (js "Delicious!"));
    try reflexivity; vm_compute; split; discriminate.
Defined.

Ltac wrong_error :=
  intros Hrun; cbv beta iota in Hrun; simplify_eq; intros Herr;
  cbv [errorOf json] in Herr; vm_compute in Herr; discriminate.

(** X23. A comment given as a string is never refused for being too
    long: 'Invalid comment length' is only answered when the sanitized
    comment is empty, because the sanitizer has already cut it to 1000
    characters. *)
Theorem long_comment_is_cut_not_refused env req st s resp st' :
  method req = js "POST" →
  getProp (body req) (js "comment") = inr (JStr s) →
  Comments.handler env req st = (inr resp, st') →
  errorOf resp = Some (js "Invalid comment length") →
  Comments.sanitizeString (JStr s) = inr [].
Proof.
  intros Hm Hc. unfold Comments.handler. post_request Hm.
  unfold Comments.addComment.
  rewrite (getProp_field _ _ _ "recipeId" Hc),
    (getProp_field _ _ _ "username" Hc), Hc.
  run_store.
  destruct (negb _ || _ || _)%bool; [wrong_error|].
  destruct (field (body req) "recipeId") as [| | | |id| |]; cbn [doc];
    run_store; try (wrong_error).
  destruct (documentPath id) as [ref|]; run_store; [|wrong_error].
  unfold getRecipe. cbv beta iota.
  destruct (recipeAt st ref) as [r|]; [|wrong_error].
  destruct (Comments.sanitizeString (JStr id)) as [e|rid]; [wrong_error|].
  destruct (Comments.sanitizeString (field (body req) "username")) as [e|u];
    [wrong_error|].
  rewrite comments_sanitize_string.
  cbn [Comment.comment Comment.username].
  destruct ((len (clean 1000 s) <? 1) || (1000 <? len (clean 1000 s)))%Z eqn:Hlen.
  - intros _ _. apply orb_true_iff in Hlen as [Hlen|Hlen].
    + apply Z.ltb_lt in Hlen. unfold len in Hlen.
      destruct (clean 1000 s); [done|simpl in Hlen; lia].
    + apply Z.ltb_lt in Hlen. pose proof (clean_length 1000 s). lia.
  - match goal with
    | |- context [if ?b then _ else _] => destruct b
    end; [wrong_error|].
    unfold addComment, getComment. cbv beta.
    destruct (comments st !! autoId env); [wrong_error|].
    cbn [comments]. rewrite lookup_insert_eq. wrong_error.
Qed.

Lemma long_comment_is_cut_not_refused_witness :
  Comments.sanitizeString (JStr (js " <> ")) = inr [].
Proof.
  apply (long_comment_is_cut_not_refused Sample.env
           (Sample.post "/api/comments"
              (JObj [ (js "recipeId", JStr (js "r1"));
                      (js "username", JStr (js "Ann"));
                      (js "comment", JStr (js " <> ")) ]))
           Sample.onePie (js " <> ")
           {| status := 400;
              headers := foldl setHeader ∅ Comments.corsHeaders;
              json := [ (js "error", Str (js "Invalid comment length"));
                        (js "message",
                         Str (js "Comment must be between 1 and 1000 characters")) ] |}
           Sample.onePie).
  - reflexivity.
  - reflexivity.
  - vm_compute. reflexivity.
  - reflexivity.
Defined.

(* ================================================================== *)
(** ** Invariants of the store *)
(* ================================================================== *)

Lemma orElse_not_nil s d : d ≠ [] → orElse s d ≠ [].
Proof. unfold orElse. by destruct s. Qed.

(** What [createRecipe] does to the store. *)
Lemma createRecipe_effect env req res st :
  (Recipes.createRecipe env req res st).2 = st
  ∨ ∃ d, (Recipes.createRecipe env req res st).2
         = {| recipes := <[autoId env := d]> (recipes st);
              comments := comments st |}
         ∧ Recipe.category d ≠ []
         ∧ Recipe.createdAt d = Recipe.updatedAt d.
Proof.
  unfold Recipes.createRecipe. run_store.
  destruct (getProp (body req) (js "name")) as [e|name] eqn:Hname; [by left|].
  rewrite (getProp_field _ _ _ "ingredients" Hname),
    (getProp_field _ _ _ "instructions" Hname),
    (getProp_field _ _ _ "category" Hname),
    (getProp_field _ _ _ "prepTime" Hname),
    (getProp_field _ _ _ "cookTime" Hname),
    (getProp_field _ _ _ "notes" Hname).
  destruct (negb _ || _ || _)%bool; [by left|].
  repeat match goal with
         | |- context [Recipes.sanitizeString ?v] =>
             destruct (Recipes.sanitizeString v); [by left|]
         end.
  unfold addRecipe, getRecipe. cbv beta.
  destruct (recipes st !! autoId env); [by left|].
  right. eexists. split; [reflexivity|]. split; [|done].
  by apply orElse_not_nil.
Qed.

Lemma deleteRecipe_effect res id st :
  (Recipes.deleteRecipe res id st).2 = st
  ∨ ∃ key, (Recipes.deleteRecipe res id st).2
           = {| recipes := delete key (recipes st); comments := comments st |}.
Proof.
  unfold Recipes.deleteRecipe, doc, getRecipe, deleteRecipe. run_store.
  destruct (documentPath id) as [ref|]; [|by left]. cbv beta iota.
  destruct ref as [|key [|more ref]]; cbn [recipeAt]; try by left.
  destruct (recipes st !! key); [right; by exists key|by left].
Qed.

(** X24. The recipes handler keeps, for every request, the invariant
    that each stored recipe has a non-empty category and equal creation
    and update times, and it never touches the comments. *)
Theorem recipes_handler_keeps_invariant env req st :
  recipesInv st →
  recipesInv (Recipes.handler env req st).2
  ∧ comments (Recipes.handler env req st).2 = comments st.
Proof.
  intros Hinv.
  destruct (decide (method req = js "OPTIONS")) as [Ho|Ho].
  { unfold Recipes.handler. by rewrite Ho. }
  destruct (Recipes.route req) as [e|r] eqn:Hr.
  { unfold Recipes.handler, eqb. rewrite bool_decide_eq_false_2 by done.
    rewrite Hr. done. }
  rewrite (recipes_handler_route env req r st Ho Hr).
  destruct r.
  - by rewrite getRecentRecipes_reads.
  - by rewrite getRecipeById_reads.
  - by rewrite getAllRecipes_reads.
  - destruct (createRecipe_effect env req (foldl setHeader ∅ Recipes.corsHeaders) st)
      as [->|(d & -> & Hcat & Htime)]; [done|].
    split; [|done]. intros id d'. cbn [recipes].
    destruct (decide (autoId env = id)) as [<-|Hne].
    + rewrite lookup_insert_eq. by intros [= <-].
    + rewrite lookup_insert_ne by done. apply Hinv.
  - destruct (deleteRecipe_effect (foldl setHeader ∅ Recipes.corsHeaders) recipeId st)
      as [->|[key ->]]; [done|].
    split; [|done]. intros id d'. cbn [recipes].
    intros [_ Hd]%lookup_delete_Some. by apply (Hinv id).
  - done.
Qed.

Lemma recipes_handler_keeps_invariant_witness :
  recipesInv
    (Recipes.handler Sample.env
       (Sample.post "/api/recipes"
          (JObj [ (js "name", JStr (js "Tea"));
                  (js "ingredients", JStr (js "water"));
                  (js "instructions", JStr (js "Boil.")) ]))
       Sample.empty).2.
Proof.
  apply (recipes_handler_keeps_invariant Sample.env _ Sample.empty).
  intros id d Hd. vm_compute in Hd. discriminate.
Defined.

(** What [addComment] does to the store. *)
Lemma addComment_effect env req res st :
  (Comments.addComment env req res st).2 = st
  ∨ ∃ c, (Comments.addComment env req res st).2
         = {| recipes := recipes st;
              comments := <[autoId env := c]> (comments st) |}
         ∧ (1 ≤ len (Comment.username c) ≤ 100)%Z
         ∧ (1 ≤ len (Comment.comment c) ≤ 1000)%Z.
Proof.
  unfold Comments.addComment. run_store.
  destruct (getProp (body req) (js "recipeId")) as [e|rid] eqn:Hid; [by left|].
  rewrite (getProp_field _ _ _ "username" Hid),
    (getProp_field _ _ _ "comment" Hid).
  destruct (negb _ || _ || _)%bool; [by left|].
  destruct rid as [| | | |id| |]; cbn [doc]; run_store; try by left.
  destruct (documentPath id) as [ref|]; run_store; [|by left].
  unfold getRecipe. cbv beta iota.
  destruct (recipeAt st ref); [|by left].
  destruct (Comments.sanitizeString (JStr id)) as [e|rid]; [by left|].
  destruct (Comments.sanitizeString (field (body req) "username")) as [e|u];
    [by left|].
  destruct (Comments.sanitizeString (field (body req) "comment")) as [e|c];
    [by left|].
  cbn [Comment.comment Comment.username].
  destruct (Z.ltb_spec (len c) 1); [by left|].
  destruct (Z.ltb_spec 1000 (len c)); [by left|].
  destruct (Z.ltb_spec (len u) 1); [by left|].
  destruct (Z.ltb_spec 100 (len u)); [by left|].
  cbn [orb]. unfold addComment, getComment. cbv beta.
  destruct (comments st !! autoId env); [by left|].
  right. eexists. split; [reflexivity|]. cbn [Comment.username Comment.comment].
  lia.
Qed.

Lemma comments_handler_effect env req st :
  (Comments.handler env req st).2 = st
  ∨ ∃ c, (Comments.handler env req st).2
         = {| recipes := recipes st;
              comments := <[autoId env := c]> (comments st) |}
         ∧ (1 ≤ len (Comment.username c) ≤ 100)%Z
         ∧ (1 ≤ len (Comment.comment c) ≤ 1000)%Z.
Proof.
  unfold Comments.handler.
  destruct (eqb (method req) (js "OPTIONS")); [by left|].
  set (res := foldl setHeader ∅ Comments.corsHeaders).
  destruct (eqb (method req) (js "GET")).
  - left. unfold try, mbind, M_bind.
    destruct (getProp (query req) (js "recipeId")) as [e|v]; [done|].
    unfold lift, mret, M_ret.
    pose proof (getComments_reads res v st) as Hreads.
    destruct (getComments_sends res v st) as (? & ? & Hrun & _).
    by rewrite Hrun in *.
  - destruct (eqb (method req) (js "POST")); [|by left].
    unfold try.
    pose proof (addComment_effect env req res st) as Heffect.
    destruct (addComment_sends env req res st) as (? & st' & Hrun & _).
    by rewrite Hrun in *.
Qed.

(** X25. The comments handler keeps, for every request, the invariant
    that each stored comment has a username of 1 to 100 characters and
    a text of 1 to 1000 characters, and it never touches the recipes. *)
Theorem comments_handler_keeps_invariant env req st :
  commentsInv st →
  commentsInv (Comments.handler env req st).2
  ∧ recipes (Comments.handler env req st).2 = recipes st.
Proof.
  intros Hinv.
  destruct (comments_handler_effect env req st)
    as [->|(c & -> & Hu & Hc)]; [done|].
  split; [|done]. intros id c'. cbn [comments].
  destruct (decide (autoId env = id)) as [<-|Hne].
  - rewrite lookup_insert_eq. by intros [= <-].
  - rewrite lookup_insert_ne by done. apply Hinv.
Qed.

Lemma comments_handler_keeps_invariant_witness :
  commentsInv
    (Comments.handler Sample.env
       (Sample.post "/api/comments"
          (JObj [ (js "recipeId", JStr (js "r1"));
                  (js "username", JStr (js "Ann"));
                  (js "comment", JStr (js "Delicious!")) ]))
       Sample.onePie).2.
Proof.
  apply (comments_handler_keeps_invariant Sample.env _ Sample.onePie).
  intros id c Hc. vm_compute in Hc. discriminate.
Defined.

(** X26. Both handlers answer every request (no exception escapes), and
    every answer to a method other than OPTIONS carries the three
    cross-origin headers. *)
Theorem handlers_always_answer env req st :
  (∃ resp st',
     Recipes.handler env req st = (inr resp, st')
     ∧ (method req ≠ js "OPTIONS" →
        headers resp !! js "Access-Control-Allow-Origin" = Some (js "*")
        ∧ headers resp !! js "Access-Control-Allow-Methods"
          = Some (js "GET, POST, PUT, DELETE, OPTIONS")
        ∧ headers resp !! js "Access-Control-Allow-Headers"
          = Some (js "Content-Type")))
  ∧ (∃ resp st',
       Comments.handler env req st = (inr resp, st')
       ∧ (method req ≠ js "OPTIONS" →
          headers resp !! js "Access-Control-Allow-Origin" = Some (js "*")
          ∧ headers resp !! js "Access-Control-Allow-Methods"
            = Some (js "GET, POST, OPTIONS")
          ∧ headers resp !! js "Access-Control-Allow-Headers"
            = Some (js "Content-Type"))).
Proof.
  pose proof cors_headers_set as (H1 & H2 & H3 & H4 & H5 & H6).
  split.
  - destruct (decide (method req = js "OPTIONS")) as [Ho|Ho].
    + unfold Recipes.handler. rewrite Ho. by eexists _, _.
    + destruct (recipes_handler_sends_cors env req Ho st)
        as (resp & st' & Hrun & Hh).
      exists resp, st'. split; [done|]. intros _. by rewrite Hh.
  - destruct (decide (method req = js "OPTIONS")) as [Ho|Ho].
    + unfold Comments.handler. rewrite Ho. by eexists _, _.
    + destruct (comments_handler_sends_cors env req Ho st)
        as (resp & st' & Hrun & Hh).
      exists resp, st'. split; [done|]. intros _. by rewrite Hh.
Qed.

Lemma handlers_always_answer_witness :
  ∃ resp st',
    Recipes.handler Sample.env (Sample.post "/api/recipes" JUndefined)
      Sample.empty = (inr resp, st')
    ∧ headers resp !! js "Access-Control-Allow-Origin" = Some (js "*").
Proof.
  destruct (proj1 (handlers_always_answer Sample.env
                     (Sample.post "/api/recipes" JUndefined) Sample.empty))
    as (resp & st' & Hrun & Hcors).
  exists resp, st'. split; [exact Hrun|].
  apply Hcors. discriminate.
Defined.

(** X3. A name given as a one-element array is stored as its element,
    unsanitized: '<' and '>' are kept and the length is not cut.  The
    POST is accepted when the other required fields are present, no
    field makes the sanitizer throw and the drawn id is free. *)
Theorem array_field_is_not_sanitized env req st (s : jsstring) :
  method req = js "POST" →
  getProp (body req) (js "name") = inr (JArr [JStr s]) →
  truthy (field (body req) "ingredients") = true →
  truthy (field (body req) "instructions") = true →
  sanitizable (body req) →
  recipes st !! autoId env = None →
  ∃ d,
    Recipes.handler env req st
    = (inr {| status := 201;
              headers := foldl setHeader ∅ Recipes.corsHeaders;
              json := [ (js "success", Bool true);
                        (js "message", Str (js "Recipe created successfully"));
                        (js "recipe", RecipeJson (autoId env) (Some d)) ] |},
       {| recipes := <[autoId env := d]> (recipes st);
          comments := comments st |})
    ∧ Recipe.name d = s.
Proof.
  intros Hm Hname Ti Ts Hsan Hfree.
  assert (Hfield : field (body req) "name" = JArr [JStr s]).
  { unfold field. by rewrite Hname. }
  destruct (createRecipe_stores_sanitized env req st _ Hm Hname)
    as (d & Hrun & Hd & _); try done.
  { by rewrite Hfield. }
  exists d. split; [done|]. rewrite Hfield in Hd.
  by injection Hd as <-.
Qed.

Lemma array_field_is_not_sanitized_witness :
  ∃ d,
    Recipes.handler Sample.env
      (Sample.post "/api/recipes"
         (JObj [ (js "name", JArr [JStr (js "<script>")]);
                 (js "ingredients", JStr (js "flour"));
                 (js "instructions", JStr (js "Mix and bake.")) ]))
      Sample.empty
    = (inr {| status := 201;
              headers := foldl setHeader ∅ Recipes.corsHeaders;
              json := [ (js "success", Bool true);
                        (js "message", Str (js "Recipe created successfully"));
                        (js "recipe", RecipeJson (js "d1") (Some d)) ] |},
       {| recipes := <[js "d1" := d]> (recipes Sample.empty);
          comments := comments Sample.empty |})
    ∧ Recipe.name d = js "<script>".
Proof.
  apply (array_field_is_not_sanitized Sample.env _ Sample.empty (js "<script>"));
    try reflexivity.
  repeat constructor; by eexists.
Defined.

(* ================================================================== *)
(** ** The comment form; category labels *)
(* ================================================================== *)

(** X13. A comment that the form sends for an existing recipe is
    accepted with 201 when, once '<' and '>' are removed, the trimmed
    username has 1 to 100 characters and the trimmed text at least one;
    the text is stored cut to 1000 characters. *)
Theorem submitted_comment_is_accepted env st id key r
  (usernameValue commentValue isoNow : jsstring) (req : Request) :
  App.handleCommentSubmit (JStr id) usernameValue commentValue isoNow
  = Some req →
  documentPath id = Some [key] →
  recipes st !! key = Some r →
  (1 ≤ len (removeAngles (trim usernameValue)) ≤ 100)%Z →
  (1 ≤ len (removeAngles (trim commentValue)))%Z →
  comments st !! autoId env = None →
  ∃ c,
    Comments.handler env req st
    = (inr {| status := 201;
              headers := foldl setHeader ∅ Comments.corsHeaders;
              json := [ (js "success", Bool true);
                        (js "message", Str (js "Comment added successfully"));
                        (js "comment", CommentJson (autoId env) (Some c)) ] |},
       {| recipes := recipes st;
          comments := <[autoId env := c]> (comments st) |})
    ∧ Comment.username c = removeAngles (trim usernameValue)
    ∧ Comment.comment c = substring0 1000 (removeAngles (trim commentValue)).
Proof.
  unfold App.handleCommentSubmit.
  destruct (truthy (JStr id)) eqn:Tid; [|done]. cbn [negb].
  destruct (negb _ || negb _)%bool; [done|].
  intros [= <-] Hpath Hr Hu Hc Hfree.
  assert (Eu : Comments.sanitizeString (JStr (trim usernameValue))
               = inr (removeAngles (trim usernameValue))).
  { rewrite comments_sanitize_string, clean_of_trim. unfold clean.
    f_equal. apply substring0_fixed. lia. }
  assert (Ec : Comments.sanitizeString (JStr (trim commentValue))
               = inr (substring0 1000 (removeAngles (trim commentValue)))).
  { by rewrite comments_sanitize_string, clean_of_trim. }
  eexists. split; [|split].
  - eapply (addComment_run env _ st id key r);
      [reflexivity|reflexivity|exact Hpath|exact Hr
      |exact Eu|exact Ec|lia| |exact Hfree].
    split; [|apply substring0_length].
    unfold len, substring0 in *. rewrite length_take. lia.
  - reflexivity.
  - reflexivity.
Qed.

Lemma submitted_comment_is_accepted_witness :
  match App.handleCommentSubmit (JStr (js "r1")) (js " Ann ") (js "Delicious! ")
          (js "2024-01-01T00:00:00.000Z") with
  | Some req =>
      ∃ c,
        Comments.handler Sample.env req Sample.onePie
        = (inr {| status := 201;
                  headers := foldl setHeader ∅ Comments.corsHeaders;
                  json := [ (js "success", Bool true);
                            (js "message", Str (js "Comment added successfully"));
                            (js "comment", CommentJson (js "d1") (Some c)) ] |},
           {| recipes := recipes Sample.onePie;
              comments := <[js "d1" := c]> (comments Sample.onePie) |})
        ∧ Comment.username c = removeAngles (trim (js " Ann "))
        ∧ Comment.comment c = substring0 1000 (removeAngles (trim (js "Delicious! ")))
  | None => False
  end.
Proof.
  apply (submitted_comment_is_accepted Sample.env Sample.onePie (js "r1")
           (js "r1") Sample.pie (js " Ann ") (js "Delicious! ")
           (js "2024-01-01T00:00:00.000Z")).
  - reflexivity.
  - reflexivity.
  - reflexivity.
  - vm_compute. split; discriminate.
  - vm_compute. discriminate.
  - reflexivity.
Defined.

Lemma join_flat_map (c : N) (p : jsstring) (ps : list jsstring) :
  join [c] (p :: ps) = p ++ flat_map (λ w, c :: w) ps.
Proof.
  revert p. induction ps as [|q ps IH]; intros p.
  - simpl. by rewrite app_nil_r.
  - change (join [c] (p :: q :: ps)) with (p ++ c :: join [c] (q :: ps)).
    by rewrite IH.
Qed.

Section CapitalizeFacts.

Variable toUpperCase : jsstring → jsstring.
Hypothesis toUpperCase_nil : toUpperCase [] = [].

#[local] Abbreviation capitalizeWord := (App.capitalizeWord toUpperCase).

Lemma capitalizeWord_nil : capitalizeWord [] = [].
Proof using toUpperCase_nil.
  unfold App.capitalizeWord. simpl. by rewrite toUpperCase_nil.
Qed.

Lemma capitalizeWord_cons c (w : jsstring) :
  capitalizeWord (c :: w) = toUpperCase [c] ++ w.
Proof using Type. reflexivity. Qed.

(** The pass over the characters, in terms of the words between the
    hyphens. *)
Lemma titleCase_words (s : jsstring) (atStart : bool) :
  ∃ p ps,
    split 45 s = p :: ps
    ∧ titleCase toUpperCase atStart s
      = (if atStart then capitalizeWord p else p)
        ++ flat_map (λ w, 32%N :: capitalizeWord w) ps.
Proof using toUpperCase_nil.
  revert atStart. induction s as [|c s IH]; intros atStart.
  - exists [], []. split; [done|]. rewrite capitalizeWord_nil.
    by destruct atStart.
  - cbn [split titleCase]. destruct (N.eqb_spec c 45) as [->|Hc].
    + destruct (IH true) as (p & ps & Hsplit & ->).
      exists [], (p :: ps). split; [by rewrite Hsplit|].
      rewrite capitalizeWord_nil. cbn [flat_map]. by destruct atStart.
    + destruct (IH false) as (p & ps & Hsplit & Htitle).
      exists (c :: p), ps. rewrite Hsplit. split; [done|].
      destruct atStart; rewrite Htitle.
      * by rewrite capitalizeWord_cons, <- app_assoc.
      * done.
Qed.

Lemma capitalize_titleCase (s : jsstring) :
  App.capitalize toUpperCase (JStr s) = inr (titleCase toUpperCase true s).
Proof using toUpperCase_nil.
  unfold App.capitalize. destruct s as [|c s]; [done|].
  rewrite truthy_cons. cbn [negb]. f_equal.
  destruct (titleCase_words (c :: s) true) as (p & ps & -> & ->).
  change (js " ") with [32%N]. cbn [List.map].
  rewrite join_flat_map. f_equal.
  induction ps as [|w ps IH]; [done|]. simpl. by rewrite IH.
Qed.

Section OneCharacter.

(** Upper-casing a character of [s] gives one character, and never a
    hyphen. *)
Variable s0 : jsstring.
Hypothesis upper_char :
  ∀ c, c ∈ s0 → c ≠ 45%N →
       length (toUpperCase [c]) = 1 ∧ (45%N ∉ toUpperCase [c]).

Lemma titleCase_shape (s : jsstring) (atStart : bool) :
  (∀ c, c ∈ s → c ∈ s0) →
  length (titleCase toUpperCase atStart s) = length s
  ∧ (45%N ∉ titleCase toUpperCase atStart s)
  ∧ (∀ i, s !! i = Some 45%N →
          titleCase toUpperCase atStart s !! i = Some 32%N).
Proof using upper_char.
  revert atStart. induction s as [|c s IH]; intros atStart Hin.
  - split; [done|]. split; [by intros ?%elem_of_nil|]. by intros i.
  - assert (Hs : ∀ c', c' ∈ s → c' ∈ s0) by (intros c' ?; apply Hin; by right).
    simpl. destruct (N.eqb_spec c 45) as [->|Hc].
    + destruct (IH true Hs) as (Hlen & Hno & Hat).
      split; [simpl; by rewrite Hlen|]. split.
      * by intros [?|?]%elem_of_cons.
      * intros [|i]; [done|]. apply Hat.
    + destruct (upper_char c) as [Hone Hup]; [apply Hin; by left|done|].
      destruct (IH false Hs) as (Hlen & Hno & Hat).
      destruct atStart.
      * split; [rewrite length_app; lia|]. split.
        -- rewrite not_elem_of_app. done.
        -- intros [|i] Hi; [by injection Hi|].
           rewrite lookup_app_r by (rewrite Hone; lia).
           rewrite Hone. replace (S i - 1) with i by lia. by apply Hat.
      * split; [simpl; by rewrite Hlen|]. split.
        -- by intros [?|?]%elem_of_cons.
        -- intros [|i] Hi; [by injection Hi|]. by apply Hat.
Qed.

End OneCharacter.

(** X10. [capitalize] is the pass over the string that turns every
    hyphen into a space, upper-cases the character that starts the
    string or follows a hyphen and copies every other character.  On a
    string whose characters each upper-case to one character that is
    not a hyphen it keeps the length, leaves no hyphen, and has a space
    wherever the string has a hyphen. *)
Theorem capitalize_replaces_hyphens (s result : jsstring) :
  App.capitalize toUpperCase (JStr s) = inr result →
  result = titleCase toUpperCase true s
  ∧ ((∀ c, c ∈ s → c ≠ 45%N →
           length (toUpperCase [c]) = 1 ∧ (45%N ∉ toUpperCase [c])) →
     length result = length s
     ∧ (45%N ∉ result)
     ∧ (∀ i, s !! i = Some 45%N → result !! i = Some 32%N)).
Proof using toUpperCase_nil.
  rewrite capitalize_titleCase. intros [= <-]. split; [done|].
  intros Hupper. by apply (titleCase_shape s Hupper).
Qed.

End CapitalizeFacts.

Lemma capitalize_replaces_hyphens_witness :
  js "Main Course" = titleCase Sample.asciiToUpperCase true (js "main-course")
  ∧ length (js "Main Course") = length (js "main-course")
  ∧ (45%N ∉ js "Main Course")
  ∧ js "Main Course" !! 4 = Some 32%N.
Proof.
  destruct (capitalize_replaces_hyphens Sample.asciiToUpperCase eq_refl
              (js "main-course") (js "Main Course") eq_refl) as [Hwords Hshape].
  split; [exact Hwords|].
  destruct Hshape as (Hlen & Hno & Hat).
  - intros c Hc Hne. vm_compute in Hc.
    repeat (apply elem_of_cons in Hc as [->|Hc];
            [first [ congruence
                   | split; [reflexivity|];
                     vm_compute; by intros [?|?%elem_of_nil]%elem_of_cons ]|]).
    by apply elem_of_nil in Hc.
  - split; [exact Hlen|]. split; [exact Hno|]. apply Hat. reflexivity.
Defined.
